(** * Ariel: the dubbing orchestrator

    A shallow embedding of [ariel/dubbing.py] (class [Dubber] and the
    module-level helpers it uses) together with models of the two
    [ariel.speech_to_text] helpers and of the remote-asset poller that the
    specification describes.

    The orchestrator is stateful and every call may raise, so the methods of
    [Dubber] are computations in a state-and-exception monad.  The state holds
    what a [Dubber] instance owns after [__init__] (the entries that
    [functools.cached_property] writes into the instance dictionary, the tqdm
    progress bar), the log, a trace of the calls that left the module, and the
    outside world (file system, remote services), which only the external
    functions can change. *)

From stdpp Require Import gmap strings list.
From Stdlib Require Import QArith_base Ascii.

Open Scope string_scope.
Open Scope Z_scope.

(** ** Python data *)

(** A field of an utterance record, [str | float] in the annotations of the
    source.  The orchestrator carries the floats and never computes on them. *)
Inductive field :=
| FStr (s : string)
| FNum (x : Q).

Abbreviation utterance := (gmap string field).
Abbreviation metadata := (list (gmap string field)).

(** The dataclass [PreprocessingArtifacts].  [run_preprocessing] stores [None]
    in [video_file] when the input is an audio file. *)
Record PreprocessingArtifacts := {
  video_file : option string;
  audio_file : string;
  audio_background_file : string;
  utterance_metadata : metadata
}.

(** The keyword arguments of [Dubber.__init__], stored as attributes of the
    same names and never assigned again. *)
Record config := {
  input_file : string;
  output_directory : string;
  advertiser_name : string;
  original_language : string;
  target_language : string;
  number_of_speakers : Z;
  diarization_instructions : option string;
  translation_instructions : option string;
  merge_utterances : bool;
  minimum_merge_threshold : Q;
  preferred_voices : option (list string);
  clean_up : bool;
  pyannote_model : string;
  diarization_system_instructions : string;
  translation_system_instructions : string;
  hugging_face_token : option string;
  gemini_token : option string;
  model_name : string;
  temperature : Q;
  top_p : Q;
  top_k : Z;
  max_output_tokens : Z;
  response_mime_type : string
}.

(** The dictionary [configure_gemini_model] builds for [generation_config]. *)
Record gemini_configuration := {
  gc_temperature : Q;
  gc_top_p : Q;
  gc_top_k : Z;
  gc_max_output_tokens : Z;
  gc_response_mime_type : string
}.

(** ** Exceptions *)

(** Why Python refuses to bind the arguments of a call. *)
Inductive call_error :=
| UnexpectedKeyword (kw : string)
| MultipleValues (param : string)
| TooManyPositional (given : nat)
| MissingArgument (param : string).

(** Instances of [Exception].  [Foreign] stands for whatever an external
    function raises. *)
Inductive exn :=
| AttributeError (cls attr : string)
| TypeError (callee : string) (why : call_error)
| UnboundLocalError (var : string)
| ValueError (msg : string)
| Foreign (cls msg : string).

Inductive outcome (A : Type) :=
| Ret (a : A)
| Raise (e : exn).
Arguments Ret {A} a.
Arguments Raise {A} e.

(** ** Logging and progress *)

Inductive level := INFO | WARNING.

(** What a log call formats into its message: an exception, a string, or the
    elapsed wall-clock time (which the model does not measure). *)
Inductive log_arg :=
| ArgExn (e : exn)
| ArgStr (s : string)
| ArgSeconds.

Record log_record := {
  log_level : level;
  log_format : string;
  log_args : list log_arg
}.

(** The part of a [tqdm] bar the orchestrator uses: [tqdm(total=...)] starts
    at [n = 0] and [update(k)] adds [k] to [n]. *)
Record tqdm := {
  total : Z;
  n : Z
}.

(** ** Module constants *)

Definition _ACCEPTED_VIDEO_FORMATS : list string := [".mp4"].
Definition _ACCEPTED_AUDIO_FORMATS : list string := [".wav"; ".mp3"; ".flac"].
Definition _UTTERNACE_METADATA_FILE_NAME : string := "utterance_metadata.json".
Definition _EXPECTED_HUGGING_FACE_ENVIRONMENTAL_VARIABLE_NAME : string :=
  "HUGGING_FACE_TOKEN".
Definition _EXPECTED_GEMINI_ENVIRONMENTAL_VARIABLE_NAME : string := "GEMINI_TOKEN".
Definition _DEFAULT_TRANSCRIPTION_MODEL : string := "large-v3".
Definition _NUMBER_OF_STEPS : Z := 6.

(** ** [str] and [os.path] helpers (POSIX) *)

Definition is_upper (c : ascii) : bool :=
  let k := nat_of_ascii c in (Nat.leb 65 k && Nat.leb k 90)%bool.
Definition is_lower (c : ascii) : bool :=
  let k := nat_of_ascii c in (Nat.leb 97 k && Nat.leb k 122)%bool.

Definition lower_char (c : ascii) : ascii :=
  if is_upper c then ascii_of_nat (nat_of_ascii c + 32) else c.
Definition upper_char (c : ascii) : ascii :=
  if is_lower c then ascii_of_nat (nat_of_ascii c - 32) else c.

Fixpoint map_string (f : ascii -> ascii) (s : string) : string :=
  match s with
  | EmptyString => EmptyString
  | String c s' => String (f c) (map_string f s')
  end.

(** [str.lower] and [str.upper] on ASCII text. *)
Definition lower (s : string) : string := map_string lower_char s.
Definition upper (s : string) : string := map_string upper_char s.

(** [str.rfind] for a one-character needle: the last index, or [-1]. *)
Fixpoint rfind_from (c : ascii) (s : string) (i last : Z) : Z :=
  match s with
  | EmptyString => last
  | String a s' => rfind_from c s' (i + 1) (if Ascii.eqb a c then i else last)
  end.
Definition rfind (c : ascii) (s : string) : Z := rfind_from c s 0 (-1).

(** The slice [s[i:j]] for [0 <= i]. *)
Definition slice (s : string) (i j : Z) : string :=
  String.substring (Z.to_nat i) (Z.to_nat (j - i)) s.

Fixpoint all_chars (p : ascii -> bool) (s : string) : bool :=
  match s with
  | EmptyString => true
  | String a s' => (p a && all_chars p s')%bool
  end.

(** [os.path.splitext]: the extension starts at the last dot of the last
    path component, unless that component has only dots before it. *)
Definition splitext (p : string) : string * string :=
  let sepIndex := rfind "/" p in
  let dotIndex := rfind "." p in
  let len := Z.of_nat (String.length p) in
  if sepIndex <? dotIndex then
    if all_chars (Ascii.eqb ".") (slice p (sepIndex + 1) dotIndex)
    then (p, "")
    else (slice p 0 dotIndex, slice p dotIndex len)
  else (p, "").

Definition startswith (pre s : string) : bool := String.prefix pre s.

Fixpoint endswith_char (c : ascii) (s : string) : bool :=
  match s with
  | EmptyString => false
  | String a EmptyString => Ascii.eqb a c
  | String _ s' => endswith_char c s'
  end.

(** [os.path.join] of two components. *)
Definition os_path_join (a b : string) : string :=
  if startswith "/" b then b
  else if (String.eqb a "" || endswith_char "/" a)%bool then a +:+ b
  else a +:+ "/" +:+ b.

(** Truth value of [str | None]. *)
Definition truthy (o : option string) : bool :=
  match o with
  | Some s => negb (String.eqb s "")
  | None => false
  end.

(** [is_video(input_file=...)], the module-level function. *)
Definition is_video (input_file : string) : outcome bool :=
  let file_extension := lower (snd (splitext input_file)) in
  if bool_decide (file_extension ∈ _ACCEPTED_VIDEO_FORMATS) then Ret true
  else if bool_decide (file_extension ∈ _ACCEPTED_AUDIO_FORMATS) then Ret false
  else Raise (ValueError ("Unsupported file format: " +:+ file_extension)).

(** ** Binding the arguments of a call *)

(** The parameters of a method after [self]. *)
Record signature := {
  qualname : string;
  params : list string;
  kwonly : list string;
  with_default : list string
}.

(** Python's check of a call with [npos] positional arguments and the keyword
    arguments [kws] against a signature without [*args] and [**kwargs]. *)
Definition check_call (sg : signature) (npos : nat) (kws : list string)
  : option call_error :=
  match filter (λ k, k ∉ (params sg ++ kwonly sg)%list) kws with
  | k :: _ => Some (UnexpectedKeyword k)
  | [] =>
    match filter (λ k, k ∈ (take npos (params sg))) kws with
    | k :: _ => Some (MultipleValues k)
    | [] =>
      if bool_decide (length (params sg) < npos)%nat
      then Some (TooManyPositional npos)
      else
        match filter (λ p, (p ∉ kws) ∧ (p ∉ with_default sg))
                     ((drop npos (params sg)) ++ kwonly sg)%list with
        | p :: _ => Some (MissingArgument p)
        | [] => None
        end
    end
  end.

Definition sig_get_api_token : signature :=
  {| qualname := "Dubber.get_api_token"; params := [];
     kwonly := ["env_variable"; "provided_token"];
     with_default := ["provided_token"] |}.

Definition sig_configure_gemini_model : signature :=
  {| qualname := "Dubber.configure_gemini_model"; params := [];
     kwonly := ["system_instruction"]; with_default := [] |}.

Definition sig_run_clean_directory : signature :=
  {| qualname := "Dubber.run_clean_directory"; params := ["keep_files"];
     kwonly := []; with_default := [] |}.

(** ** The state of a run *)

(** The entries [functools.cached_property] writes into the instance
    dictionary, one optional slot per cached property that the methods read.
    ([diarization_system_instructions] and [translation_system_instructions]
    are also declared as cached properties, but [__init__] assigns instance
    attributes of the same names, which shadow them: reading them yields the
    constructor arguments, kept in [config].) *)
Record instance_dict := {
  slot_device : option string;
  slot_is_video : option bool;
  slot_progress_bar : option tqdm;
  slot_preprocesing_output : option PreprocessingArtifacts;
  slot_speech_to_text_output : option metadata;
  slot_translation_output : option metadata;
  slot_text_to_speech_output : option metadata;
  slot_postprocessing_output : option string
}.

Definition empty_dict : instance_dict :=
  {| slot_device := None; slot_is_video := None; slot_progress_bar := None;
     slot_preprocesing_output := None; slot_speech_to_text_output := None;
     slot_translation_output := None; slot_text_to_speech_output := None;
     slot_postprocessing_output := None |}.

Definition set_slot_device (v : option string) (d : instance_dict) :=
  {| slot_device := v; slot_is_video := slot_is_video d;
     slot_progress_bar := slot_progress_bar d;
     slot_preprocesing_output := slot_preprocesing_output d;
     slot_speech_to_text_output := slot_speech_to_text_output d;
     slot_translation_output := slot_translation_output d;
     slot_text_to_speech_output := slot_text_to_speech_output d;
     slot_postprocessing_output := slot_postprocessing_output d |}.

Definition set_slot_is_video (v : option bool) (d : instance_dict) :=
  {| slot_device := slot_device d; slot_is_video := v;
     slot_progress_bar := slot_progress_bar d;
     slot_preprocesing_output := slot_preprocesing_output d;
     slot_speech_to_text_output := slot_speech_to_text_output d;
     slot_translation_output := slot_translation_output d;
     slot_text_to_speech_output := slot_text_to_speech_output d;
     slot_postprocessing_output := slot_postprocessing_output d |}.

Definition set_slot_progress_bar (v : option tqdm) (d : instance_dict) :=
  {| slot_device := slot_device d; slot_is_video := slot_is_video d;
     slot_progress_bar := v;
     slot_preprocesing_output := slot_preprocesing_output d;
     slot_speech_to_text_output := slot_speech_to_text_output d;
     slot_translation_output := slot_translation_output d;
     slot_text_to_speech_output := slot_text_to_speech_output d;
     slot_postprocessing_output := slot_postprocessing_output d |}.

Definition set_slot_preprocesing_output
    (v : option PreprocessingArtifacts) (d : instance_dict) :=
  {| slot_device := slot_device d; slot_is_video := slot_is_video d;
     slot_progress_bar := slot_progress_bar d;
     slot_preprocesing_output := v;
     slot_speech_to_text_output := slot_speech_to_text_output d;
     slot_translation_output := slot_translation_output d;
     slot_text_to_speech_output := slot_text_to_speech_output d;
     slot_postprocessing_output := slot_postprocessing_output d |}.

Definition set_slot_speech_to_text_output (v : option metadata) (d : instance_dict) :=
  {| slot_device := slot_device d; slot_is_video := slot_is_video d;
     slot_progress_bar := slot_progress_bar d;
     slot_preprocesing_output := slot_preprocesing_output d;
     slot_speech_to_text_output := v;
     slot_translation_output := slot_translation_output d;
     slot_text_to_speech_output := slot_text_to_speech_output d;
     slot_postprocessing_output := slot_postprocessing_output d |}.

Definition set_slot_translation_output (v : option metadata) (d : instance_dict) :=
  {| slot_device := slot_device d; slot_is_video := slot_is_video d;
     slot_progress_bar := slot_progress_bar d;
     slot_preprocesing_output := slot_preprocesing_output d;
     slot_speech_to_text_output := slot_speech_to_text_output d;
     slot_translation_output := v;
     slot_text_to_speech_output := slot_text_to_speech_output d;
     slot_postprocessing_output := slot_postprocessing_output d |}.

Definition set_slot_text_to_speech_output (v : option metadata) (d : instance_dict) :=
  {| slot_device := slot_device d; slot_is_video := slot_is_video d;
     slot_progress_bar := slot_progress_bar d;
     slot_preprocesing_output := slot_preprocesing_output d;
     slot_speech_to_text_output := slot_speech_to_text_output d;
     slot_translation_output := slot_translation_output d;
     slot_text_to_speech_output := v;
     slot_postprocessing_output := slot_postprocessing_output d |}.

Definition set_slot_postprocessing_output (v : option string) (d : instance_dict) :=
  {| slot_device := slot_device d; slot_is_video := slot_is_video d;
     slot_progress_bar := slot_progress_bar d;
     slot_preprocesing_output := slot_preprocesing_output d;
     slot_speech_to_text_output := slot_speech_to_text_output d;
     slot_translation_output := slot_translation_output d;
     slot_text_to_speech_output := slot_text_to_speech_output d;
     slot_postprocessing_output := v |}.

(** What a run can change: the instance dictionary, the log, the trace of
    calls to external functions (by qualified name, in call order), and the
    world outside the process. *)
Record state (world : Type) := {
  self_dict : instance_dict;
  log : list log_record;
  calls : list string;
  outside : world
}.
Arguments self_dict {world} s.
Arguments log {world} s.
Arguments calls {world} s.
Arguments outside {world} s.

(** A [Dubber] right after [__init__]: nothing cached, nothing logged. *)
Definition Dubber_init {world} (w : world) : state world :=
  {| self_dict := empty_dict; log := []; calls := []; outside := w |}.

Definition set_dict {world} (f : instance_dict -> instance_dict) (s : state world)
  : state world :=
  {| self_dict := f (self_dict s); log := log s; calls := calls s;
     outside := outside s |}.

Definition add_log {world} (r : log_record) (s : state world) : state world :=
  {| self_dict := self_dict s; log := (log s ++ [r])%list; calls := calls s;
     outside := outside s |}.

Definition add_call {world} (name : string) (w : world) (s : state world)
  : state world :=
  {| self_dict := self_dict s; log := log s; calls := (calls s ++ [name])%list;
     outside := w |}.

(** The progress counter: [n] of the bar, [0] while no bar exists. *)
Definition progress {world} (s : state world) : Z :=
  match slot_progress_bar (self_dict s) with
  | Some bar => n bar
  | None => 0
  end.

(** ** The monad of methods *)

Definition M (world A : Type) : Type := state world -> outcome A * state world.

Definition ret {world A} (a : A) : M world A := λ s, (Ret a, s).

Definition raise {world A} (e : exn) : M world A := λ s, (Raise e, s).

Definition bind {world A B} (m : M world A) (k : A -> M world B) : M world B :=
  λ s, match m s with
       | (Ret a, s') => k a s'
       | (Raise e, s') => (Raise e, s')
       end.

Notation "x <- c1 ;; c2" := (bind c1 (λ x, c2))
  (at level 100, c1 at next level, right associativity).
Notation "c1 ;; c2" := (bind c1 (λ _, c2))
  (at level 100, right associativity).

(** [try: body / except Exception as e: handler e]. *)
Definition try_except {world A} (body : M world A) (handler : exn -> M world A)
  : M world A :=
  λ s, match body s with
       | (Ret a, s') => (Ret a, s')
       | (Raise e, s') => handler e s'
       end.

(** A pure computation that may raise. *)
Definition lift {world A} (o : outcome A) : M world A := λ s, (o, s).

(** A call that leaves the module: it is recorded in the trace and acts on
    the outside world only. *)
Definition foreign {world A} (name : string) (f : world -> outcome A * world)
  : M world A :=
  λ s, let '(r, w) := f (outside s) in (r, add_call name w s).

Definition logging_info {world} (fmt : string) (args : list log_arg)
  : M world unit :=
  λ s, (Ret tt, add_log {| log_level := INFO; log_format := fmt;
                           log_args := args |} s).

Definition logging_warning {world} (fmt : string) (args : list log_arg)
  : M world unit :=
  λ s, (Ret tt, add_log {| log_level := WARNING; log_format := fmt;
                           log_args := args |} s).

(** A call of a method of [Dubber]: the body runs only if Python can bind the
    arguments as written at the call site. *)
Definition invoke {world A} (sg : signature) (npos : nat) (kws : list string)
    (body : M world A) : M world A :=
  match check_call sg npos kws with
  | Some why => raise (TypeError (qualname sg) why)
  | None => body
  end.

(** [functools.cached_property]: an entry of the instance dictionary wins;
    otherwise the function runs and its result, if it returns one, is stored
    under the property's name.  Nothing is stored when the function raises. *)
Definition cached_property {world A}
    (get : instance_dict -> option A)
    (set : option A -> instance_dict -> instance_dict)
    (func : M world A) : M world A :=
  λ s, match get (self_dict s) with
       | Some v => (Ret v, s)
       | None =>
         match func s with
         | (Ret v, s') => (Ret v, set_dict (set (Some v)) s')
         | (Raise e, s') => (Raise e, s')
         end
       end.

(** An attribute that neither the class nor the instance defines.  [Dubber]
    has no [__getattr__], so the lookup raises. *)
Definition undefined_attribute {world A} (name : string) : M world A :=
  raise (AttributeError "Dubber" name).

(** ** External functions *)

(** The functions [Dubber] calls outside [dubbing.py]: the sibling modules of
    the package and third-party libraries.  Each acts on the outside world and
    may raise; nothing else is assumed about them.  [handle] is the type of
    the opaque objects they hand out (models, clients, open files).  The
    constant safety settings passed to [genai.GenerativeModel] are left out
    of its arguments. *)
Record externals {world handle : Type} := {
  video_processing_split_audio_video :
    string -> string -> world -> outcome (string * string) * world;
  video_processing_combine_audio_video :
    option string -> string -> string -> world -> outcome string * world;
  audio_processing_build_demucs_command :
    string -> string -> world -> outcome string * world;
  audio_processing_execute_demcus_command :
    string -> world -> outcome unit * world;
  audio_processing_assemble_split_audio_file_paths :
    string -> world -> outcome (string * string) * world;
  audio_processing_create_pyannote_timestamps :
    string -> Z -> handle -> world -> outcome metadata * world;
  audio_processing_cut_and_save_audio :
    metadata -> string -> string -> world -> outcome metadata * world;
  audio_processing_insert_audio_at_timestamps :
    metadata -> string -> string -> world -> outcome string * world;
  audio_processing_merge_background_and_vocals :
    string -> string -> string -> world -> outcome string * world;
  speech_to_text_transcribe_audio_chunks :
    metadata -> string -> string -> handle -> world -> outcome metadata * world;
  speech_to_text_diarize_speakers :
    option string -> metadata -> handle -> option string -> world ->
    outcome (list (string * string)) * world;
  speech_to_text_add_speaker_info :
    metadata -> list (string * string) -> world -> outcome metadata * world;
  translation_generate_script :
    metadata -> world -> outcome string * world;
  translation_translate_script :
    string -> string -> option string -> string -> handle -> world ->
    outcome string * world;
  translation_add_translations :
    metadata -> string -> world -> outcome metadata * world;
  translation_merge_utterances :
    metadata -> Q -> world -> outcome metadata * world;
  text_to_speech_assign_voices :
    metadata -> string -> option (list string) -> world ->
    outcome (gmap string (option string)) * world;
  text_to_speech_update_utterance_metadata :
    metadata -> gmap string (option string) -> world -> outcome metadata * world;
  text_to_speech_dub_utterances :
    handle -> metadata -> string -> string -> world -> outcome metadata * world;
  torch_cuda_is_available : world -> outcome bool * world;
  os_getenv : string -> world -> outcome (option string) * world;
  Pipeline_from_pretrained : string -> string -> world -> outcome handle * world;
  WhisperModel : string -> string -> string -> world -> outcome handle * world;
  genai_configure : string -> world -> outcome unit * world;
  genai_GenerativeModel :
    string -> gemini_configuration -> string -> world -> outcome handle * world;
  texttospeech_TextToSpeechClient : world -> outcome handle * world;
  (* [tf.io.gfile.GFile(path, "w")] entered as a context manager, and its exit *)
  gfile_GFile_w : string -> world -> outcome handle * world;
  gfile_GFile_exit : handle -> world -> outcome unit * world;
  json_dump : metadata -> handle -> world -> outcome unit * world;
  gfile_listdir : string -> world -> outcome (list string) * world;
  gfile_exists : string -> world -> outcome bool * world;
  gfile_remove : string -> world -> outcome unit * world;
  gfile_isdir : string -> world -> outcome bool * world;
  shutil_rmtree : string -> world -> outcome unit * world
}.

(** [with cm as f: body f], for a context manager whose [__exit__] does not
    suppress exceptions: the exit runs on both paths, and an exception of the
    exit replaces the one of the body. *)
Definition with_statement {world handle A}
    (enter : M world handle) (exit : handle -> M world unit)
    (body : handle -> M world A) : M world A :=
  f <- enter ;;
  λ s, match body f s with
       | (Ret a, s1) =>
         match exit f s1 with
         | (Ret _, s2) => (Ret a, s2)
         | (Raise e, s2) => (Raise e, s2)
         end
       | (Raise e, s1) =>
         match exit f s1 with
         | (Ret _, s2) => (Raise e, s2)
         | (Raise e', s2) => (Raise e', s2)
         end
       end.

(** [for x in xs: body x]. *)
Fixpoint for_each {world A} (body : A -> M world unit) (xs : list A)
  : M world unit :=
  match xs with
  | [] => ret tt
  | x :: rest => body x ;; for_each body rest
  end.

(** The message of the [ValueError] of [get_api_token]. *)
Definition token_message (env_variable : string) : string :=
  "You must either provide the '" +:+ env_variable
  +:+ "' argument or set the '" +:+ upper env_variable
  +:+ "' environment variable.".

(** ** Class [Dubber] *)

Section Dubber.

Context {world handle : Type}.
Variable E : @externals world handle.
Variable cfg : config.

Local Abbreviation comp := (M world).

(** [device], a cached property. *)
Definition device : comp string :=
  cached_property slot_device set_slot_device
    (available <- foreign "torch.cuda.is_available" (torch_cuda_is_available E) ;;
     ret (if available : bool then "gpu" else "cpu")).

(** [Dubber.is_video], a cached property over the module-level [is_video]. *)
Definition Dubber_is_video : comp bool :=
  cached_property slot_is_video set_slot_is_video
    (lift (is_video (input_file cfg))).

(** [get_api_token(self, *, env_variable, provided_token=None)]: the token is
    [provided_token or os.getenv(env_variable)], refused when it is [None] or
    empty. *)
Definition get_api_token (env_variable : string) (provided_token : option string)
  : comp string :=
  token <- (if truthy provided_token then ret provided_token
            else foreign "os.getenv" (os_getenv E env_variable)) ;;
  match token with
  | Some t =>
    if truthy token then ret t else raise (ValueError (token_message env_variable))
  | None => raise (ValueError (token_message env_variable))
  end.

(** [pyannote_pipeline], a property.  It passes both arguments of
    [get_api_token] positionally. *)
Definition pyannote_pipeline : comp handle :=
  hugging_face_token <-
    invoke sig_get_api_token 2 []
      (get_api_token _EXPECTED_HUGGING_FACE_ENVIRONMENTAL_VARIABLE_NAME
         (hugging_face_token cfg)) ;;
  foreign "Pipeline.from_pretrained"
    (Pipeline_from_pretrained E (pyannote_model cfg) hugging_face_token).

(** [speech_to_text_model], a property. *)
Definition speech_to_text_model : comp handle :=
  d <- device ;;
  d' <- device ;;
  foreign "WhisperModel"
    (WhisperModel E _DEFAULT_TRANSCRIPTION_MODEL d
       (if String.eqb d' "gpu" then "float16" else "int8")).

(** [configure_gemini_model(self, *, system_instruction)]. *)
Definition configure_gemini_model (system_instruction : string) : comp handle :=
  gemini_token <-
    invoke sig_get_api_token 2 []
      (get_api_token _EXPECTED_GEMINI_ENVIRONMENTAL_VARIABLE_NAME
         (gemini_token cfg)) ;;
  foreign "genai.configure" (genai_configure E gemini_token) ;;
  let gemini_configuration :=
    {| gc_temperature := temperature cfg; gc_top_p := top_p cfg;
       gc_top_k := top_k cfg; gc_max_output_tokens := max_output_tokens cfg;
       gc_response_mime_type := response_mime_type cfg |} in
  foreign "genai.GenerativeModel"
    (genai_GenerativeModel E (model_name cfg) gemini_configuration
       system_instruction).

(** [text_to_speech_client], a property. *)
Definition text_to_speech_client : comp handle :=
  foreign "texttospeech.TextToSpeechClient" (texttospeech_TextToSpeechClient E).

(** [progress_bar], a cached property. *)
Definition progress_bar : comp tqdm :=
  cached_property slot_progress_bar set_slot_progress_bar
    (let total_number_of_steps :=
       if clean_up cfg then _NUMBER_OF_STEPS else _NUMBER_OF_STEPS - 1 in
     ret {| total := total_number_of_steps; n := 0 |}).

(** [self.progress_bar.update(k)]: the bar held by the slot is updated in
    place. *)
Definition progress_bar_update (k : Z) : comp unit :=
  bar <- progress_bar ;;
  λ s, (Ret tt,
        set_dict (set_slot_progress_bar
                    (Some {| total := total bar; n := n bar + k |})) s).

(** The five cached stage outputs.  Their functions call [self.preprocessing],
    [self.speech_to_text] (three times) and [self.postprocessing]; the class
    defines [run_preprocessing], [run_speech_to_text] and
    [run_postprocessing] but no attribute under those names. *)
Definition preprocesing_output : comp PreprocessingArtifacts :=
  cached_property slot_preprocesing_output set_slot_preprocesing_output
    (undefined_attribute "preprocessing").

Definition speech_to_text_output : comp metadata :=
  cached_property slot_speech_to_text_output set_slot_speech_to_text_output
    (undefined_attribute "speech_to_text").

Definition translation_output : comp metadata :=
  cached_property slot_translation_output set_slot_translation_output
    (undefined_attribute "speech_to_text").

Definition text_to_speech_output : comp metadata :=
  cached_property slot_text_to_speech_output set_slot_text_to_speech_output
    (undefined_attribute "speech_to_text").

Definition postprocessing_output : comp string :=
  cached_property slot_postprocessing_output set_slot_postprocessing_output
    (undefined_attribute "postprocessing").

(** [run_preprocessing]. *)
Definition run_preprocessing : comp PreprocessingArtifacts :=
  is_vid <- Dubber_is_video ;;
  files <-
    (if is_vid : bool then
       split <- foreign "video_processing.split_audio_video"
                  (video_processing_split_audio_video E (input_file cfg)
                     (output_directory cfg)) ;;
       ret (Some (fst split), snd split)
     else ret (None, input_file cfg)) ;;
  let video_file := fst files in
  let audio_file := snd files in
  demucs_command <-
    foreign "audio_processing.build_demucs_command"
      (audio_processing_build_demucs_command E audio_file (output_directory cfg)) ;;
  foreign "audio_processing.execute_demcus_command"
    (audio_processing_execute_demcus_command E demucs_command) ;;
  paths <- foreign "audio_processing.assemble_split_audio_file_paths"
             (audio_processing_assemble_split_audio_file_paths E demucs_command) ;;
  let audio_background_file := snd paths in
  pipeline <- pyannote_pipeline ;;
  utterance_metadata <-
    foreign "audio_processing.create_pyannote_timestamps"
      (audio_processing_create_pyannote_timestamps E audio_file
         (number_of_speakers cfg) pipeline) ;;
  utterance_metadata <-
    foreign "audio_processing.cut_and_save_audio"
      (audio_processing_cut_and_save_audio E utterance_metadata audio_file
         (output_directory cfg)) ;;
  logging_info "Completed preprocessing." [] ;;
  progress_bar_update 1 ;;
  ret {| video_file := video_file; audio_file := audio_file;
         audio_background_file := audio_background_file;
         utterance_metadata := utterance_metadata |}.

(** [run_speech_to_text].  The call of [configure_gemini_model] names its
    argument [system_instructions]. *)
Definition run_speech_to_text : comp metadata :=
  tested <- preprocesing_output ;;
  media_file <-
    (if truthy (video_file tested)
     then (p <- preprocesing_output ;; ret (video_file p))
     else (p <- preprocesing_output ;; ret (Some (audio_file p)))) ;;
  p <- preprocesing_output ;;
  model <- speech_to_text_model ;;
  utterance_metadata <-
    foreign "speech_to_text.transcribe_audio_chunks"
      (speech_to_text_transcribe_audio_chunks E (utterance_metadata p)
         (advertiser_name cfg) (original_language cfg) model) ;;
  speaker_diarization_model <-
    invoke sig_configure_gemini_model 0 ["system_instructions"]
      (configure_gemini_model (diarization_system_instructions cfg)) ;;
  speaker_info <-
    foreign "speech_to_text.diarize_speakers"
      (speech_to_text_diarize_speakers E media_file utterance_metadata
         speaker_diarization_model (diarization_instructions cfg)) ;;
  utterance_metadata <-
    foreign "speech_to_text.add_speaker_info"
      (speech_to_text_add_speaker_info E utterance_metadata speaker_info) ;;
  logging_info "Completed transcription." [] ;;
  progress_bar_update 1 ;;
  ret utterance_metadata.

(** [run_translation].  The local [utterance_metadata] is read, as an
    argument of [add_translations], before anything is assigned to it. *)
Definition run_translation : comp metadata :=
  transcribed <- speech_to_text_output ;;
  script <- foreign "translation.generate_script"
              (translation_generate_script E transcribed) ;;
  translation_model <-
    invoke sig_configure_gemini_model 0 ["system_instructions"]
      (configure_gemini_model (translation_system_instructions cfg)) ;;
  translated_script <-
    foreign "translation.translate_script"
      (translation_translate_script E script (advertiser_name cfg)
         (translation_instructions cfg) (target_language cfg) translation_model) ;;
  unbound <- raise (UnboundLocalError "utterance_metadata") ;;
  utterance_metadata <-
    foreign "translation.add_translations"
      (translation_add_translations E unbound translated_script) ;;
  utterance_metadata <-
    (if merge_utterances cfg then
       foreign "translation.merge_utterances"
         (translation_merge_utterances E utterance_metadata
            (minimum_merge_threshold cfg))
     else ret utterance_metadata) ;;
  logging_info "Completed translation." [] ;;
  progress_bar_update 1 ;;
  ret utterance_metadata.

(** [run_text_to_speech].  Here too [utterance_metadata] is read before its
    first assignment. *)
Definition run_text_to_speech : comp metadata :=
  translated <- translation_output ;;
  assigned_voices <-
    foreign "text_to_speech.assign_voices"
      (text_to_speech_assign_voices E translated (target_language cfg)
         (preferred_voices cfg)) ;;
  unbound <- raise (UnboundLocalError "utterance_metadata") ;;
  utterance_metadata <-
    foreign "text_to_speech.update_utterance_metadata"
      (text_to_speech_update_utterance_metadata E unbound assigned_voices) ;;
  client <- text_to_speech_client ;;
  utterance_metadata <-
    foreign "text_to_speech.dub_utterances"
      (text_to_speech_dub_utterances E client utterance_metadata
         (output_directory cfg) (target_language cfg)) ;;
  logging_info "Completed converting text to speech." [] ;;
  progress_bar_update 1 ;;
  ret utterance_metadata.

(** [run_postprocessing]. *)
Definition run_postprocessing : comp string :=
  dubbed <- text_to_speech_output ;;
  p <- preprocesing_output ;;
  dubbed_audio_vocals_file <-
    foreign "audio_processing.insert_audio_at_timestamps"
      (audio_processing_insert_audio_at_timestamps E dubbed
         (audio_background_file p) (output_directory cfg)) ;;
  p <- preprocesing_output ;;
  dubbed_audio_file <-
    foreign "audio_processing.merge_background_and_vocals"
      (audio_processing_merge_background_and_vocals E (audio_background_file p)
         dubbed_audio_vocals_file (output_directory cfg)) ;;
  is_vid <- Dubber_is_video ;;
  output_file <-
    (if is_vid : bool then
       p <- preprocesing_output ;;
       if negb (truthy (video_file p)) then
         raise (ValueError
                  "A video file must be provided if the input file is a video.")
       else
         p <- preprocesing_output ;;
         foreign "video_processing.combine_audio_video"
           (video_processing_combine_audio_video E (video_file p)
              dubbed_audio_file (output_directory cfg))
     else ret dubbed_audio_file) ;;
  logging_info "Completed postprocessing." [] ;;
  progress_bar_update 1 ;;
  ret output_file.

(** One turn of the loop of [run_clean_directory]. *)
Definition clean_entry (keep_files : list string) (filename : string) : comp unit :=
  let file_path := os_path_join (output_directory cfg) filename in
  if bool_decide (filename ∈ keep_files) then ret tt
  else
    present <- foreign "tf.io.gfile.exists" (gfile_exists E file_path) ;;
    if present : bool then foreign "tf.io.gfile.remove" (gfile_remove E file_path)
    else
      is_dir <- foreign "tf.io.gfile.isdir" (gfile_isdir E file_path) ;;
      if is_dir : bool then foreign "shutil.rmtree" (shutil_rmtree E file_path)
      else ret tt.

(** The loop of [run_clean_directory] over the listing of the output
    directory. *)
Definition clean_loop (keep_files : list string) : comp unit :=
  listing <- foreign "tf.io.gfile.listdir" (gfile_listdir E (output_directory cfg)) ;;
  for_each (clean_entry keep_files) listing.

(** The body of [run_clean_directory(self, keep_files)]: the parameter is
    overwritten by the one-element list of the final output before it is
    read. *)
Definition run_clean_directory_body (keep_files : list string) : comp unit :=
  final <- postprocessing_output ;;
  let keep_files := [final] in
  clean_loop keep_files ;;
  logging_info "Temporary artifacts are now removed." [] ;;
  progress_bar_update 1.

(** [run_clean_directory] called with the positional arguments [args]. *)
Definition run_clean_directory (args : list (list string)) : comp unit :=
  invoke sig_run_clean_directory (length args) []
    (run_clean_directory_body (default [] (head args))).

(** The guarded block of [run_save_utterance_metadata]. *)
Definition write_utterance_metadata (utterance_metadata_file : string) : comp unit :=
  with_statement
    (foreign "tf.io.gfile.GFile" (gfile_GFile_w E utterance_metadata_file))
    (λ json_file, foreign "GFile.__exit__" (gfile_GFile_exit E json_file))
    (λ json_file,
       dubbed <- text_to_speech_output ;;
       foreign "json.dump" (json_dump E dubbed json_file)) ;;
  logging_info "Utterance metadata saved successfully to '{utterance_metadata_file}'"
    [ArgStr utterance_metadata_file].

(** [run_save_utterance_metadata]. *)
Definition run_save_utterance_metadata : comp string :=
  let utterance_metadata_file :=
    os_path_join (output_directory cfg) _UTTERNACE_METADATA_FILE_NAME in
  try_except
    (write_utterance_metadata utterance_metadata_file)
    (λ e, logging_warning "Error saving utterance metadata: {e}" [ArgExn e]) ;;
  ret utterance_metadata_file.

(** The closing statements of [dub_ad]: three log records and the return
    value, for which [postprocessing_output] is read twice.  [time.time()] is
    not modelled. *)
Definition dub_ad_report : comp string :=
  logging_info "Dubbing process finished." [] ;;
  logging_info "Total execution time: %.2f seconds." [ArgSeconds] ;;
  saved <- postprocessing_output ;;
  logging_info "Output file saved under: %s." [ArgStr saved] ;;
  postprocessing_output.

(** [dub_ad], with the seven methods it calls on [self] as parameters: the
    order of the calls, the discarded results and the unguarded propagation
    of exceptions are those of the source. *)
Section Orchestration.

Variable stage_preprocessing : comp PreprocessingArtifacts.
Variables stage_speech_to_text stage_translation stage_text_to_speech : comp metadata.
Variable stage_save_utterance_metadata : comp string.
Variable stage_postprocessing : comp string.
Variable stage_clean_directory : list (list string) -> comp unit.

Definition dub_ad_with : comp string :=
  logging_info "Dubbing process starting..." [] ;;
  stage_preprocessing ;;
  stage_speech_to_text ;;
  stage_translation ;;
  stage_text_to_speech ;;
  stage_save_utterance_metadata ;;
  stage_postprocessing ;;
  (if clean_up cfg then stage_clean_directory [] else ret tt) ;;
  dub_ad_report.

End Orchestration.

(** [Dubber.dub_ad]. *)
Definition dub_ad : comp string :=
  dub_ad_with run_preprocessing run_speech_to_text run_translation
    run_text_to_speech run_save_utterance_metadata run_postprocessing
    run_clean_directory.

End Dubber.

(** ** [ariel.speech_to_text]: the diarization response parser *)

(** The result of parsing: the tuples, or the error naming the offending
    line.  An error carries no tuples. *)
Inductive parsed (A : Type) :=
| Parsed (a : A)
| ParseError (line : string).
Arguments Parsed {A} a.
Arguments ParseError {A} line.

Definition newline : ascii := ascii_of_nat 10.

(** The lines of a text: a newline ends a line, and a last line needs none
    ([str.splitlines] restricted to the line feed). *)
Fixpoint splitlines (s : string) : list string :=
  match s with
  | EmptyString => []
  | String c s' =>
    if Ascii.eqb c newline then "" :: splitlines s'
    else match splitlines s' with
         | [] => [String c ""]
         | l :: ls => String c l :: ls
         end
  end.

(** [str.split] on a one-character separator. *)
Fixpoint split_on (sep : ascii) (s : string) : list string :=
  match s with
  | EmptyString => [""]
  | String c s' =>
    if Ascii.eqb c sep then "" :: split_on sep s'
    else match split_on sep s' with
         | [] => [String c ""]
         | l :: ls => String c l :: ls
         end
  end.

Definition is_space (c : ascii) : bool :=
  let k := nat_of_ascii c in (Nat.eqb k 32 || (Nat.leb 9 k && Nat.leb k 13))%bool.

Fixpoint lstrip (s : string) : string :=
  match s with
  | EmptyString => ""
  | String c s' => if is_space c then lstrip s' else s
  end.

Fixpoint rstrip (s : string) : string :=
  match s with
  | EmptyString => ""
  | String c s' =>
    match rstrip s' with
    | EmptyString => if is_space c then "" else String c ""
    | r => String c r
    end
  end.

(** [str.strip] on ASCII white space. *)
Definition strip (s : string) : string := rstrip (lstrip s).

(** [chop c s] is [Some inner] when [s] is [inner] followed by [c]. *)
Fixpoint chop (c : ascii) (s : string) : option string :=
  match s with
  | EmptyString => None
  | String a EmptyString => if Ascii.eqb a c then Some "" else None
  | String a s' => String a <$> chop c s'
  end.

(** The text between the opening and the closing parenthesis of a line. *)
Definition unparen (line : string) : option string :=
  match line with
  | String c rest => if Ascii.eqb c "(" then chop ")" rest else None
  | EmptyString => None
  end.

(** Modelled from the spec: the per-line step of
    [speech_to_text.process_speaker_diarization_response], whose source is not
    part of the files at hand.  A line has the shape
    [(speaker_label, gender_label)]: two parentheses around exactly two
    comma-separated, non-blank tokens; anything else is a [ParseError] naming
    the line. *)
Definition parse_line (line : string) : parsed (string * string) :=
  match unparen line with
  | Some inner =>
    match split_on "," inner with
    | [a; b] =>
      if (String.eqb (strip a) "" || String.eqb (strip b) "")%bool
      then ParseError line
      else Parsed (strip a, strip b)
    | _ => ParseError line
    end
  | None => ParseError line
  end.

Fixpoint parse_lines (lines : list string) : parsed (list (string * string)) :=
  match lines with
  | [] => Parsed []
  | line :: rest =>
    match parse_line line with
    | ParseError l => ParseError l
    | Parsed t =>
      match parse_lines rest with
      | ParseError l => ParseError l
      | Parsed ts => Parsed (t :: ts)
      end
    end
  end.

(** Modelled from the spec: [speech_to_text.process_speaker_diarization_response],
    whose source is not part of the files at hand.  The text holds zero or
    more lines separated by newlines; the tuples come out in the order of the
    lines, duplicates included; the first malformed line aborts the parse. *)
Definition process_speaker_diarization_response (response : string)
  : parsed (list (string * string)) :=
  parse_lines (splitlines response).

(** How a tuple is written on a line, and a text of such lines, each ended by
    a newline or only separated by newlines. *)
Definition render_line (t : string * string) : string :=
  "(" +:+ fst t +:+ ", " +:+ snd t +:+ ")".

Fixpoint unlines (lines : list string) : string :=
  match lines with
  | [] => ""
  | l :: rest => l +:+ String newline (unlines rest)
  end.

Fixpoint join_lines (lines : list string) : string :=
  match lines with
  | [] => ""
  | [l] => l
  | l :: rest => l +:+ String newline (join_lines rest)
  end.

(** A label that a well-formed line can carry: not empty, free of commas and
    newlines, with no white space at either end. *)
Definition no_char (c : ascii) (s : string) : bool :=
  all_chars (λ a, negb (Ascii.eqb a c)) s.

Definition valid_label (s : string) : bool :=
  (negb (String.eqb s "") && no_char "," s && no_char newline s
   && String.eqb (strip s) s)%bool.

Definition valid_tuple (t : string * string) : bool :=
  (valid_label (fst t) && valid_label (snd t))%bool.

(** The two ways a line is malformed: missing parentheses, or a number of
    comma-separated tokens other than two. *)
Definition missing_parentheses (line : string) : Prop := unparen line = None.

Definition wrong_token_count (line : string) : Prop :=
  ∃ inner, unparen line = Some inner ∧ length (split_on "," inner) ≠ 2%nat.

Definition malformed (line : string) : Prop :=
  missing_parentheses line ∨ wrong_token_count line.

(** ** [ariel.speech_to_text]: attribution *)

(** Modelled from the spec: [speech_to_text.add_speaker_info], whose source is
    not part of the files at hand.  The keys of the two attached fields and
    the message of the error are those of [AddSpeakerInfoTest]. *)
Definition add_speaker_info (utterance_metadata : metadata)
    (speaker_info : list (string * string)) : outcome metadata :=
  if bool_decide (length utterance_metadata = length speaker_info) then
    Ret (zip_with
           (λ (u : gmap string field) (speaker : string * string),
              <["ssml_gender" := FStr (snd speaker)]>
                (<["speaker_id" := FStr (fst speaker)]> u))
           utterance_metadata speaker_info)
  else
    Raise (ValueError
      "The length of 'utterance_metadata' and 'speaker_info' must be the same.").

(** ** The remote asset readiness poller *)

Inductive asset_state := pending | active | failed.

Inductive poll_error := RemoteAssetTimeout | RemoteAssetFailed.

(** What a wait reports: the verdict, the number of status queries made, the
    time spent sleeping, and the remote service as the wait leaves it. *)
Record poll_report (remote : Type) := {
  verdict : option poll_error;
  queries : nat;
  waited : nat;
  remote_after : remote
}.
Arguments verdict {remote} p.
Arguments queries {remote} p.
Arguments waited {remote} p.
Arguments remote_after {remote} p.

Section Poller.

Context {remote handle : Type}.

(** The status query supplied by the caller; the state of the asset belongs
    to the remote service, which may change with every query and while the
    caller sleeps. *)
Variable query_status : handle -> remote -> asset_state * remote.
Variable sleep : nat -> remote -> remote.
Variables max_wait poll_interval : nat.

(** Modelled from the spec: the loop of the poller, which the source files at
    hand do not contain.  Each turn queries the status: [active] ends the
    wait with success and [failed] with [RemoteAssetFailed], at once; on
    [pending] the wait ends with [RemoteAssetTimeout] if the elapsed time
    exceeds [max_wait], and otherwise sleeps one fixed interval and queries
    again.  [fuel] bounds the number of queries; [None] means the bound was
    reached. *)
Fixpoint poll (fuel : nat) (h : handle) (elapsed asked : nat) (r : remote)
  : option (poll_report remote) :=
  match fuel with
  | O => None
  | S fuel' =>
    let '(st, r1) := query_status h r in
    match st with
    | active =>
      Some {| verdict := None; queries := S asked; waited := elapsed;
              remote_after := r1 |}
    | failed =>
      Some {| verdict := Some RemoteAssetFailed; queries := S asked;
              waited := elapsed; remote_after := r1 |}
    | pending =>
      if (max_wait <? elapsed)%nat then
        Some {| verdict := Some RemoteAssetTimeout; queries := S asked;
                waited := elapsed; remote_after := r1 |}
      else poll fuel' h (elapsed + poll_interval)%nat (S asked)
             (sleep poll_interval r1)
    end
  end.

(** Modelled from the spec: [wait_until_active(handle, query_status, max_wait,
    poll_interval)].  With a positive interval [max_wait + 2] queries always
    suffice. *)
Definition wait_until_active (h : handle) (r : remote)
  : option (poll_report remote) :=
  poll (max_wait + 2) h 0 0 r.

End Poller.

(** ** Properties of computations used in the statements *)

(** [m] never touches the progress bar. *)
Definition keeps_bar {world A} (m : M world A) : Prop :=
  ∀ s, slot_progress_bar (self_dict (snd (m s))) = slot_progress_bar (self_dict s).

(** [m] raises from every state, and leaves the progress bar as it found it. *)
Definition aborts {world A} (m : M world A) : Prop :=
  ∀ s, ∃ e s', m s = (Raise e, s')
               ∧ slot_progress_bar (self_dict s') = slot_progress_bar (self_dict s).

(** The state in which [dub_ad] calls its first stage. *)
Definition started {world} (s : state world) : state world :=
  add_log {| log_level := INFO; log_format := "Dubbing process starting...";
             log_args := [] |} s.

(** The first four stages of a run started in [s0] all return, the fourth
    one in state [s4]. *)
Definition four_stages_return {world}
    (stage_preprocessing : M world PreprocessingArtifacts)
    (stage_speech_to_text stage_translation stage_text_to_speech : M world metadata)
    (s0 s4 : state world) : Prop :=
  ∃ a1 s1 a2 s2 a3 s3 a4,
    stage_preprocessing (started s0) = (Ret a1, s1)
    ∧ stage_speech_to_text s1 = (Ret a2, s2)
    ∧ stage_translation s2 = (Ret a3, s3)
    ∧ stage_text_to_speech s3 = (Ret a4, s4).

(** The record [run_save_utterance_metadata] logs when the write raises. *)
Definition save_warning (e : exn) : log_record :=
  {| log_level := WARNING; log_format := "Error saving utterance metadata: {e}";
     log_args := [ArgExn e] |}.

(** No stage output is cached. *)
Definition no_stage_cached (d : instance_dict) : Prop :=
  slot_preprocesing_output d = None
  ∧ slot_speech_to_text_output d = None
  ∧ slot_translation_output d = None
  ∧ slot_text_to_speech_output d = None
  ∧ slot_postprocessing_output d = None.

(** ** Test doubles *)

(** A small outside world: the names in the output directory, and the paths
    that refuse to be removed or written. *)
Record toy_world := {
  toy_files : list string;
  toy_locked : list string
}.

Definition toy_config : config :=
  {| input_file := "ad.mp4"; output_directory := "out";
     advertiser_name := "Acme"; original_language := "en";
     target_language := "pl"; number_of_speakers := 1;
     diarization_instructions := None; translation_instructions := None;
     merge_utterances := true; minimum_merge_threshold := Qmake 1 1000;
     preferred_voices := None; clean_up := true;
     pyannote_model := "pyannote/speaker-diarization-3.1";
     diarization_system_instructions := "diarize";
     translation_system_instructions := "translate";
     hugging_face_token := Some "hf"; gemini_token := Some "gm";
     model_name := "gemini-1.5-flash"; temperature := Qmake 1 1;
     top_p := Qmake 95 100; top_k := 64; max_output_tokens := 8192;
     response_mime_type := "text/plain" |}.

Definition toy_exists (path : string) (w : toy_world) : bool :=
  bool_decide (path ∈ os_path_join "out" <$> toy_files w).

Definition toy_remove (path : string) (w : toy_world)
  : outcome unit * toy_world :=
  if bool_decide (path ∈ toy_locked w)
  then (Raise (Foreign "PermissionDeniedError" path), w)
  else (Ret tt,
        {| toy_files := filter (λ f, os_path_join "out" f ≠ path) (toy_files w);
           toy_locked := toy_locked w |}).

Definition toy_open (path : string) (w : toy_world)
  : outcome unit * toy_world :=
  if bool_decide (path ∈ toy_locked w)
  then (Raise (Foreign "PermissionDeniedError" path), w)
  else (Ret tt, w).

(** External functions that all succeed, except that locked paths can be
    neither removed nor opened for writing. *)
Definition toy_externals : @externals toy_world unit :=
  {| video_processing_split_audio_video :=
       λ _ _ w, (Ret ("out/video.mp4", "out/audio.mp3"), w);
     video_processing_combine_audio_video := λ _ _ _ w, (Ret "out/dubbed.mp4", w);
     audio_processing_build_demucs_command := λ _ _ w, (Ret "demucs", w);
     audio_processing_execute_demcus_command := λ _ w, (Ret tt, w);
     audio_processing_assemble_split_audio_file_paths :=
       λ _ w, (Ret ("out/vocals.mp3", "out/no_vocals.mp3"), w);
     audio_processing_create_pyannote_timestamps := λ _ _ _ w, (Ret [], w);
     audio_processing_cut_and_save_audio := λ m _ _ w, (Ret m, w);
     audio_processing_insert_audio_at_timestamps :=
       λ _ _ _ w, (Ret "out/dubbed_vocals.mp3", w);
     audio_processing_merge_background_and_vocals :=
       λ _ _ _ w, (Ret "out/dubbed_audio.mp3", w);
     speech_to_text_transcribe_audio_chunks := λ m _ _ _ w, (Ret m, w);
     speech_to_text_diarize_speakers := λ _ _ _ _ w, (Ret [], w);
     speech_to_text_add_speaker_info := λ m _ w, (Ret m, w);
     translation_generate_script := λ _ w, (Ret "script", w);
     translation_translate_script := λ _ _ _ _ _ w, (Ret "skrypt", w);
     translation_add_translations := λ m _ w, (Ret m, w);
     translation_merge_utterances := λ m _ w, (Ret m, w);
     text_to_speech_assign_voices := λ _ _ _ w, (Ret ∅, w);
     text_to_speech_update_utterance_metadata := λ m _ w, (Ret m, w);
     text_to_speech_dub_utterances := λ _ m _ _ w, (Ret m, w);
     torch_cuda_is_available := λ w, (Ret false, w);
     os_getenv := λ _ w, (Ret None, w);
     Pipeline_from_pretrained := λ _ _ w, (Ret tt, w);
     WhisperModel := λ _ _ _ w, (Ret tt, w);
     genai_configure := λ _ w, (Ret tt, w);
     genai_GenerativeModel := λ _ _ _ w, (Ret tt, w);
     texttospeech_TextToSpeechClient := λ w, (Ret tt, w);
     gfile_GFile_w := toy_open;
     gfile_GFile_exit := λ _ w, (Ret tt, w);
     json_dump := λ _ _ w, (Ret tt, w);
     gfile_listdir := λ _ w, (Ret (toy_files w), w);
     gfile_exists := λ path w, (Ret (toy_exists path w), w);
     gfile_remove := toy_remove;
     gfile_isdir := λ _ w, (Ret false, w);
     shutil_rmtree := λ _ w, (Ret tt, w) |}.

(** An output directory after a run, where the first chunk cannot be
    removed. *)
Definition toy_directory : toy_world :=
  {| toy_files := ["chunk_1.mp3"; "chunk_2.mp3"; "dubbed.mp4"];
     toy_locked := ["out/chunk_1.mp3"] |}.

(** An output directory that cannot take the metadata file. *)
Definition toy_readonly : toy_world :=
  {| toy_files := []; toy_locked := ["out/utterance_metadata.json"] |}.

(** A [Dubber] whose final output is already cached, as if postprocessing had
    stored its result. *)
Definition with_final_output {world} (path : string) (s : state world)
  : state world :=
  set_dict (set_slot_postprocessing_output (Some path)) s.

(** Stage methods that succeed at once, for exercising [dub_ad_with]. *)
Definition toy_artifacts : PreprocessingArtifacts :=
  {| video_file := Some "out/video.mp4"; audio_file := "out/audio.mp3";
     audio_background_file := "out/no_vocals.mp3"; utterance_metadata := [] |}.

(** A status query that answers from a script, one entry per query, and
    [pending] once the script is exhausted. *)
Definition scripted_status (h : unit) (script : list asset_state)
  : asset_state * list asset_state :=
  match script with
  | [] => (pending, [])
  | st :: rest => (st, rest)
  end.

(** A status query whose handle never leaves [pending]. *)
Definition always_pending (h : unit) (r : unit) : asset_state * unit :=
  (pending, r).

(** A sleep during which the remote service does not change. *)
Definition idle_sleep {remote} (seconds : nat) (r : remote) : remote := r.

(** The inputs of [AddSpeakerInfoTest]. *)
Definition test_utterance_metadata : metadata :=
  [ {[ "text" := FStr "Hello"; "start" := FNum (Qmake 0 1); "stop" := FNum (Qmake 1 1) ]};
    {[ "text" := FStr "world"; "start" := FNum (Qmake 1 1); "stop" := FNum (Qmake 2 1) ]} ].

Definition test_speaker_info : list (string * string) :=
  [("speaker1", "male"); ("speaker2", "female")].

(** ** Traces of computations *)

(** Every external call [m] makes, from any state, is among [allowed]. *)
Definition calls_only {world A} (allowed : list string) (m : M world A) : Prop :=
  ∀ s, ∃ made, calls (snd (m s)) = (calls s ++ made)%list ∧ made ⊆ allowed.

(** [m] raises from every state, with the progress counter where it was and
    after external calls among [allowed] only. *)
Definition stops {world A} (allowed : list string) (m : M world A) : Prop :=
  ∀ s, ∃ e s' made,
    m s = (Raise e, s')
    ∧ progress s' = progress s
    ∧ calls s' = (calls s ++ made)%list
    ∧ made ⊆ allowed.

(** ** [read_system_settings] *)

Section SystemSettings.

Context {world : Type}.

(** [with tf.io.gfile.GFile(path, "r") as file: return file.read()], an
    external function like those of [externals]. *)
Variable gfile_read : string -> world -> outcome string * world.

(** The handler of [except FileNotFoundError]: an exception of exactly that
    class is replaced by a new one naming the path, any other one passes. *)
Definition file_not_found_handler {A} (path : string) (e : exn) : M world A :=
  match e with
  | Foreign cls _ =>
    if String.eqb cls "FileNotFoundError"
    then raise (Foreign "FileNotFoundError" ("File not found: " +:+ path))
    else raise e
  | _ => raise e
  end.

(** [read_system_settings(system_instructions)].  The argument is a [str] by
    its type, so the [isinstance] guard never fires. *)
Definition read_system_settings (system_instructions : string) : M world string :=
  let extension := snd (splitext system_instructions) in
  if String.eqb extension ".txt" then
    try_except
      (foreign "tf.io.gfile.GFile.read" (gfile_read system_instructions))
      (file_not_found_handler system_instructions)
  else if negb (String.eqb extension "") then
    raise (ValueError ("Unsupported file type: " +:+ extension))
  else ret system_instructions.

End SystemSettings.

(** ** [setup.py] *)

(** [str.isspace] on one ASCII character: the space, the controls 9 to 13 and
    the separators 28 to 31. *)
Definition py_space (c : ascii) : bool :=
  let k := nat_of_ascii c in
  (Nat.eqb k 32 || (Nat.leb 9 k && Nat.leb k 13)
   || (Nat.leb 28 k && Nat.leb k 31))%bool.

(** [str.isspace]: at least one character, all of them white space. *)
Definition isspace (s : string) : bool :=
  (negb (String.eqb s "") && all_chars py_space s)%bool.

(** [str.lstrip(chars)] and [str.rstrip(chars)] for a predicate on
    characters, and [str.strip(chars)]. *)
Fixpoint lstrip_chars (drop : ascii -> bool) (s : string) : string :=
  match s with
  | EmptyString => ""
  | String c s' => if drop c then lstrip_chars drop s' else s
  end.

Fixpoint rstrip_chars (drop : ascii -> bool) (s : string) : string :=
  match s with
  | EmptyString => ""
  | String c s' =>
    match rstrip_chars drop s' with
    | EmptyString => if drop c then "" else String c ""
    | r => String c r
    end
  end.

Definition strip_chars (drop : ascii -> bool) (s : string) : string :=
  rstrip_chars drop (lstrip_chars drop s).

(** Membership of a character in a string used as a set of characters. *)
Fixpoint char_in (chars : string) (c : ascii) : bool :=
  match chars with
  | EmptyString => false
  | String a rest => (Ascii.eqb c a || char_in rest c)%bool
  end.

(** [str.find] for a one-character needle: the first index, or [-1]. *)
Fixpoint find_from (c : ascii) (s : string) (i : Z) : Z :=
  match s with
  | EmptyString => -1
  | String a s' => if Ascii.eqb a c then i else find_from c s' (i + 1)
  end.
Definition find (c : ascii) (s : string) : Z := find_from c s 0.

(** The lines a text file yields when iterated: each keeps its newline, the
    last one may lack it, and none is empty. *)
Fixpoint file_lines (content : string) : list string :=
  match content with
  | EmptyString => []
  | String c rest =>
    if Ascii.eqb c newline then String c "" :: file_lines rest
    else match file_lines rest with
         | [] => [String c ""]
         | l :: ls => String c l :: ls
         end
  end.

(** The characters [_get_version] strips: space, both quotes, newline. *)
Definition version_padding : string :=
  String " " (String "'" (String (ascii_of_nat 34) (String newline ""))).

(** The loop of [_get_version] over the lines of the opened file. *)
Fixpoint _get_version_lines (fp : list string) : outcome string :=
  match fp with
  | [] => Raise (ValueError "`__version__` not defined in `ariel/__init__.py`")
  | line :: rest =>
    if (startswith "__version__" line && negb (no_char "=" line))%bool then
      let version :=
        strip_chars (char_in version_padding)
          (slice line (find "=" line + 1) (Z.of_nat (String.length line))) in
      if negb (String.eqb version "") then Ret version
      else _get_version_lines rest
    else _get_version_lines rest
  end.

(** The list comprehension of [_parse_requirements] over the lines of the
    opened file. *)
Definition _parse_requirements_lines (f : list string) : list string :=
  rstrip_chars py_space
    <$> filter (λ line, (isspace line || startswith "#" line)%bool = false) f.

Section Setup.

(** The directory of [setup.py], and the text files readable at the time:
    [open(path).read()], or the exception of [open]. *)
Variable _CURRENT_DIR : string.
Variable open_read : string -> outcome string.

(** [_get_version()]. *)
Definition _get_version : outcome string :=
  match open_read (os_path_join (os_path_join _CURRENT_DIR "ariel") "__init__.py") with
  | Ret content => _get_version_lines (file_lines content)
  | Raise e => Raise e
  end.

(** [_parse_requirements(path)]. *)
Definition _parse_requirements (path : string) : outcome (list string) :=
  match open_read (os_path_join _CURRENT_DIR path) with
  | Ret content => Ret (_parse_requirements_lines (file_lines content))
  | Raise e => Raise e
  end.

(** [_INSTALL_REQUIREMENTS], which hands [_parse_requirements] a path already
    joined with the directory. *)
Definition _INSTALL_REQUIREMENTS : outcome (list string) :=
  _parse_requirements (os_path_join _CURRENT_DIR "requirements.txt").

End Setup.

(** The line that declares version [v] with double quotes. *)
Definition version_line (v : string) : string :=
  "__version__ = " +:+ String (ascii_of_nat 34)
    (v +:+ String (ascii_of_nat 34) (String newline "")).

(** A version that survives the stripping: not empty, with no padding
    character at either end. *)
Definition clean_version (v : string) : bool :=
  (negb (String.eqb v "")
   && String.eqb (lstrip_chars (char_in version_padding) v) v
   && String.eqb (rstrip_chars (char_in version_padding) v) v)%bool.

(** ** More test doubles *)

(** A state in which the preprocessing and synthesis outputs are cached, as
    if the stages had stored their results. *)
Definition with_stage_outputs {world} (p : PreprocessingArtifacts) (m : metadata)
    (s : state world) : state world :=
  set_dict (set_slot_preprocesing_output (Some p))
    (set_dict (set_slot_text_to_speech_output (Some m)) s).

Definition toy_audio_config : config :=
  {| input_file := "ad.mp3"; output_directory := "out";
     advertiser_name := "Acme"; original_language := "en";
     target_language := "pl"; number_of_speakers := 1;
     diarization_instructions := None; translation_instructions := None;
     merge_utterances := true; minimum_merge_threshold := Qmake 1 1000;
     preferred_voices := None; clean_up := false;
     pyannote_model := "pyannote/speaker-diarization-3.1";
     diarization_system_instructions := "diarize";
     translation_system_instructions := "translate";
     hugging_face_token := None; gemini_token := None;
     model_name := "gemini-1.5-flash"; temperature := Qmake 1 1;
     top_p := Qmake 95 100; top_k := 64; max_output_tokens := 8192;
     response_mime_type := "text/plain" |}.

Definition toy_audio_artifacts : PreprocessingArtifacts :=
  {| video_file := None; audio_file := "ad.mp3";
     audio_background_file := "out/no_vocals.mp3"; utterance_metadata := [] |}.

(** A file system with one settings file. *)
Definition toy_gfile_read (path : string) (w : toy_world)
  : outcome string * toy_world :=
  if String.eqb path "settings.txt" then (Ret "Be brief", w)
  else (Raise (Foreign "FileNotFoundError" path), w).

(** A source tree with a version file and a requirements file. *)
Definition toy_open_read (path : string) : outcome string :=
  if String.eqb path "/repo/ariel/__init__.py" then
    Ret ("# Ariel" +:+ String newline (version_line "0.0.1"))
  else if String.eqb path "/repo/requirements.txt" then
    Ret ("# pinned" +:+ String newline
           ("absl-py  " +:+ String newline
              (String newline ("tqdm>=4" +:+ String newline ""))))
  else Raise (Foreign "FileNotFoundError" path).

(** The external functions of [toy_externals], except that splitting the
    video fails. *)
Definition toy_externals_without_ffmpeg : @externals toy_world unit :=
  {| video_processing_split_audio_video :=
       λ _ _ w, (Raise (Foreign "FileNotFoundError" "ffmpeg"), w);
     video_processing_combine_audio_video :=
       video_processing_combine_audio_video toy_externals;
     audio_processing_build_demucs_command :=
       audio_processing_build_demucs_command toy_externals;
     audio_processing_execute_demcus_command :=
       audio_processing_execute_demcus_command toy_externals;
     audio_processing_assemble_split_audio_file_paths :=
       audio_processing_assemble_split_audio_file_paths toy_externals;
     audio_processing_create_pyannote_timestamps :=
       audio_processing_create_pyannote_timestamps toy_externals;
     audio_processing_cut_and_save_audio :=
       audio_processing_cut_and_save_audio toy_externals;
     audio_processing_insert_audio_at_timestamps :=
       audio_processing_insert_audio_at_timestamps toy_externals;
     audio_processing_merge_background_and_vocals :=
       audio_processing_merge_background_and_vocals toy_externals;
     speech_to_text_transcribe_audio_chunks :=
       speech_to_text_transcribe_audio_chunks toy_externals;
     speech_to_text_diarize_speakers := speech_to_text_diarize_speakers toy_externals;
     speech_to_text_add_speaker_info := speech_to_text_add_speaker_info toy_externals;
     translation_generate_script := translation_generate_script toy_externals;
     translation_translate_script := translation_translate_script toy_externals;
     translation_add_translations := translation_add_translations toy_externals;
     translation_merge_utterances := translation_merge_utterances toy_externals;
     text_to_speech_assign_voices := text_to_speech_assign_voices toy_externals;
     text_to_speech_update_utterance_metadata :=
       text_to_speech_update_utterance_metadata toy_externals;
     text_to_speech_dub_utterances := text_to_speech_dub_utterances toy_externals;
     torch_cuda_is_available := torch_cuda_is_available toy_externals;
     os_getenv := os_getenv toy_externals;
     Pipeline_from_pretrained := Pipeline_from_pretrained toy_externals;
     WhisperModel := WhisperModel toy_externals;
     genai_configure := genai_configure toy_externals;
     genai_GenerativeModel := genai_GenerativeModel toy_externals;
     texttospeech_TextToSpeechClient := texttospeech_TextToSpeechClient toy_externals;
     gfile_GFile_w := gfile_GFile_w toy_externals;
     gfile_GFile_exit := gfile_GFile_exit toy_externals;
     json_dump := json_dump toy_externals;
     gfile_listdir := gfile_listdir toy_externals;
     gfile_exists := gfile_exists toy_externals;
     gfile_remove := gfile_remove toy_externals;
     gfile_isdir := gfile_isdir toy_externals;
     shutil_rmtree := shutil_rmtree toy_externals |}.

(** A stage double that reports progress once and returns [v]. *)
Definition toy_stage {A} (v : A) : M toy_world A :=
  progress_bar_update toy_audio_config 1 ;; ret v.

(** * Verification *)

(** ** The monad and [cached_property] *)

Section MonadFacts.

Context {world : Type}.
Implicit Types s : state world.

Lemma bind_Ret {A B} (m : M world A) (k : A -> M world B) s a s' :
  m s = (Ret a, s') -> bind m k s = k a s'.
Proof. intros H. unfold bind. now rewrite H. Qed.

Lemma bind_Raise {A B} (m : M world A) (k : A -> M world B) s e s' :
  m s = (Raise e, s') -> bind m k s = (Raise e, s').
Proof. intros H. unfold bind. now rewrite H. Qed.

(** A bind returns only if its first part does. *)
Lemma bind_Ret_inv {A B} (m : M world A) (k : A -> M world B) s b s' :
  bind m k s = (Ret b, s') ->
  ∃ a s1, m s = (Ret a, s1) ∧ k a s1 = (Ret b, s').
Proof.
  unfold bind. destruct (m s) as [[a|e] s1]; intros H.
  - eauto.
  - discriminate.
Qed.

Lemma cached_property_hit {A} get set (func : M world A) s v :
  get (self_dict s) = Some v -> cached_property get set func s = (Ret v, s).
Proof. intros H. unfold cached_property. now rewrite H. Qed.

Lemma cached_property_miss_raise {A} get set (func : M world A) s e s' :
  get (self_dict s) = None -> func s = (Raise e, s') ->
  cached_property get set func s = (Raise e, s').
Proof. intros H1 H2. unfold cached_property. now rewrite H1, H2. Qed.

Lemma cached_property_miss_ret {A} get set (func : M world A) s v s' :
  get (self_dict s) = None -> func s = (Ret v, s') ->
  cached_property get set func s = (Ret v, set_dict (set (Some v)) s').
Proof. intros H1 H2. unfold cached_property. now rewrite H1, H2. Qed.

(** The mechanism of [functools.cached_property] memoises: once an access
    has returned, the next one returns the same value and runs nothing. *)
Lemma cached_property_memo {A} get set (func : M world A) s v s' :
  (∀ o d, get (set o d) = o) ->
  cached_property get set func s = (Ret v, s') ->
  cached_property get set func s' = (Ret v, s').
Proof.
  intros Hlens. unfold cached_property at 1.
  destruct (get (self_dict s)) as [v0|] eqn:Hget.
  - intros [= <- <-]. now apply cached_property_hit.
  - destruct (func s) as [[v1|e] s1]; intros [= <- <-].
    apply cached_property_hit. simpl. apply Hlens.
Qed.

(** An undefined attribute leaves the state alone, so an access through
    [cached_property] that finds no entry raises and caches nothing. *)
Lemma cached_undefined {A} get set name s :
  get (self_dict s) = None ->
  cached_property (A:=A) get set (undefined_attribute name) s
  = (Raise (AttributeError "Dubber" name), s).
Proof. intros H. now apply cached_property_miss_raise. Qed.

(** *** Computations that leave the progress bar alone *)

Lemma keeps_bar_ret {A} (a : A) : keeps_bar (ret (world:=world) a).
Proof. now intros s. Qed.

Lemma keeps_bar_raise {A} e : keeps_bar (raise (world:=world) (A:=A) e).
Proof. now intros s. Qed.

Lemma keeps_bar_lift {A} (o : outcome A) : keeps_bar (lift (world:=world) o).
Proof. now intros s. Qed.

Lemma keeps_bar_foreign {A} name (f : world -> outcome A * world) :
  keeps_bar (foreign name f).
Proof. intros s. unfold foreign. now destruct (f (outside s)). Qed.

Lemma keeps_bar_logging_info fmt args :
  keeps_bar (logging_info (world:=world) fmt args).
Proof. now intros s. Qed.

Lemma keeps_bar_logging_warning fmt args :
  keeps_bar (logging_warning (world:=world) fmt args).
Proof. now intros s. Qed.

Lemma keeps_bar_bind {A B} (m : M world A) (k : A -> M world B) :
  keeps_bar m -> (∀ a, keeps_bar (k a)) -> keeps_bar (bind m k).
Proof.
  intros Hm Hk s. unfold bind. specialize (Hm s).
  destruct (m s) as [[a|e] s1]; simpl in *.
  - now rewrite Hk.
  - exact Hm.
Qed.

Lemma keeps_bar_invoke {A} sg npos kws (body : M world A) :
  keeps_bar body -> keeps_bar (invoke sg npos kws body).
Proof.
  intros H. unfold invoke. destruct (check_call sg npos kws).
  - apply keeps_bar_raise.
  - exact H.
Qed.

Lemma keeps_bar_try_except {A} (body : M world A) handler :
  keeps_bar body -> (∀ e, keeps_bar (handler e)) ->
  keeps_bar (try_except body handler).
Proof.
  intros Hb Hh s. unfold try_except. specialize (Hb s).
  destruct (body s) as [[a|e] s1]; simpl in *.
  - exact Hb.
  - now rewrite Hh.
Qed.

Lemma keeps_bar_with_statement {handle A}
    (enter : M world handle) exit (body : handle -> M world A) :
  keeps_bar enter -> (∀ f, keeps_bar (exit f)) -> (∀ f, keeps_bar (body f)) ->
  keeps_bar (with_statement enter exit body).
Proof.
  intros He Hx Hb. unfold with_statement. apply keeps_bar_bind; [exact He|].
  intros f s. specialize (Hb f s).
  destruct (body f s) as [[a|e] s1]; simpl in *;
    specialize (Hx f s1); destruct (exit f s1) as [[u|e'] s2]; simpl in *;
    congruence.
Qed.

(** A cached property whose slot is not the bar's keeps the bar if its
    function does. *)
Lemma keeps_bar_cached {A} get set (func : M world A) :
  (∀ o d, slot_progress_bar (set o d) = slot_progress_bar d) ->
  keeps_bar func -> keeps_bar (cached_property get set func).
Proof.
  intros Hset Hf s. unfold cached_property.
  destruct (get (self_dict s)); [reflexivity|].
  specialize (Hf s). destruct (func s) as [[v|e] s1]; simpl in *.
  - now rewrite Hset.
  - exact Hf.
Qed.

Lemma keeps_bar_undefined {A} name :
  keeps_bar (undefined_attribute (world:=world) (A:=A) name).
Proof. now intros s. Qed.

(** *** Computations that always raise *)

Lemma aborts_raise {A} e : aborts (raise (world:=world) (A:=A) e).
Proof. intros s. now exists e, s. Qed.

Lemma aborts_bind_l {A B} (m : M world A) (k : A -> M world B) :
  aborts m -> aborts (bind m k).
Proof.
  intros Hm s. destruct (Hm s) as (e & s' & Hs & Hbar).
  exists e, s'. split; [now apply bind_Raise | exact Hbar].
Qed.

Lemma aborts_bind_r {A B} (m : M world A) (k : A -> M world B) :
  keeps_bar m -> (∀ a, aborts (k a)) -> aborts (bind m k).
Proof.
  intros Hm Hk s. specialize (Hm s). unfold bind.
  destruct (m s) as [[a|e] s1]; simpl in *.
  - destruct (Hk a s1) as (e & s' & Hs & Hbar).
    exists e, s'. split; [exact Hs | congruence].
  - now exists e, s1.
Qed.

Lemma aborts_invoke_refused {A} sg npos kws why (body : M world A) :
  check_call sg npos kws = Some why -> aborts (invoke sg npos kws body).
Proof. intros H. unfold invoke. rewrite H. apply aborts_raise. Qed.

End MonadFacts.

(** ** The methods of [Dubber] *)

Section DubberFacts.

Context {world handle : Type}.
Variable E : @externals world handle.
Variable cfg : config.
Implicit Types s : state world.

Create HintDb bar.

#[local] Hint Resolve keeps_bar_ret keeps_bar_raise keeps_bar_lift
  keeps_bar_foreign keeps_bar_logging_info keeps_bar_logging_warning
  keeps_bar_undefined : bar.

(** Splits a goal [keeps_bar m] along the binds, conditionals and wrappers of
    [m]. *)
Ltac bar_step :=
  first
    [ solve [eauto with bar]
    | apply keeps_bar_with_statement; [|intros ?|intros ?]
    | apply keeps_bar_try_except; [|intros ?]
    | apply keeps_bar_invoke
    | apply keeps_bar_cached; [reflexivity|]
    | apply keeps_bar_bind; [|intros ?]
    | match goal with |- keeps_bar (if ?b then _ else _) => destruct b end
    | match goal with |- keeps_bar (match ?o with _ => _ end) => destruct o end ].
Ltac bar := repeat bar_step.

Lemma keeps_bar_Dubber_is_video : keeps_bar (Dubber_is_video (world:=world) cfg).
Proof. unfold Dubber_is_video. bar. Qed.

Lemma keeps_bar_device : keeps_bar (device E).
Proof. unfold device. bar. Qed.

Lemma keeps_bar_preprocesing_output :
  keeps_bar (preprocesing_output (world:=world)).
Proof. unfold preprocesing_output. bar. Qed.

Lemma keeps_bar_speech_to_text_output :
  keeps_bar (speech_to_text_output (world:=world)).
Proof. unfold speech_to_text_output. bar. Qed.

Lemma keeps_bar_translation_output :
  keeps_bar (translation_output (world:=world)).
Proof. unfold translation_output. bar. Qed.

Lemma keeps_bar_text_to_speech_output :
  keeps_bar (text_to_speech_output (world:=world)).
Proof. unfold text_to_speech_output. bar. Qed.

Lemma keeps_bar_postprocessing_output :
  keeps_bar (postprocessing_output (world:=world)).
Proof. unfold postprocessing_output. bar. Qed.

#[local] Hint Resolve keeps_bar_Dubber_is_video keeps_bar_device
  keeps_bar_preprocesing_output keeps_bar_speech_to_text_output
  keeps_bar_translation_output keeps_bar_text_to_speech_output
  keeps_bar_postprocessing_output : bar.

Lemma keeps_bar_speech_to_text_model : keeps_bar (speech_to_text_model E).
Proof. unfold speech_to_text_model. bar. Qed.

#[local] Hint Resolve keeps_bar_speech_to_text_model : bar.

(** Both callers of [get_api_token] pass its keyword-only parameters
    positionally, which Python refuses. *)
Lemma pyannote_pipeline_aborts : aborts (pyannote_pipeline E cfg).
Proof.
  unfold pyannote_pipeline. apply aborts_bind_l.
  now apply aborts_invoke_refused with (why := TooManyPositional 2).
Qed.

Lemma configure_gemini_model_aborts system_instruction :
  aborts (configure_gemini_model E cfg system_instruction).
Proof.
  unfold configure_gemini_model. apply aborts_bind_l.
  now apply aborts_invoke_refused with (why := TooManyPositional 2).
Qed.

(** The four data stages raise from every state, before they report
    progress. *)
Lemma run_preprocessing_aborts : aborts (run_preprocessing E cfg).
Proof.
  unfold run_preprocessing.
  apply aborts_bind_r; [bar|intros is_vid].
  apply aborts_bind_r; [bar|intros files].
  apply aborts_bind_r; [bar|intros demucs_command].
  apply aborts_bind_r; [bar|intros _].
  apply aborts_bind_r; [bar|intros paths].
  apply aborts_bind_l, pyannote_pipeline_aborts.
Qed.

Lemma run_speech_to_text_aborts : aborts (run_speech_to_text E cfg).
Proof.
  unfold run_speech_to_text.
  apply aborts_bind_r; [bar|intros tested].
  apply aborts_bind_r; [bar|intros media_file].
  apply aborts_bind_r; [bar|intros p].
  apply aborts_bind_r; [bar|intros model].
  apply aborts_bind_r; [bar|intros utterance_metadata].
  apply aborts_bind_l.
  now apply aborts_invoke_refused
    with (why := UnexpectedKeyword "system_instructions").
Qed.

Lemma run_translation_aborts : aborts (run_translation E cfg).
Proof.
  unfold run_translation.
  apply aborts_bind_r; [bar|intros transcribed].
  apply aborts_bind_r; [bar|intros script].
  apply aborts_bind_l.
  now apply aborts_invoke_refused
    with (why := UnexpectedKeyword "system_instructions").
Qed.

Lemma run_text_to_speech_aborts : aborts (run_text_to_speech E cfg).
Proof.
  unfold run_text_to_speech.
  apply aborts_bind_r; [bar|intros translated].
  apply aborts_bind_r; [bar|intros assigned_voices].
  apply aborts_bind_l, aborts_raise.
Qed.

(** [run_clean_directory] called as [dub_ad] calls it, without its required
    argument, is refused. *)
Lemma run_clean_directory_no_argument_aborts :
  aborts (run_clean_directory E cfg []).
Proof.
  unfold run_clean_directory.
  now apply aborts_invoke_refused with (why := MissingArgument "keep_files").
Qed.

Lemma dub_ad_aborts : aborts (dub_ad E cfg).
Proof.
  unfold dub_ad, dub_ad_with.
  apply aborts_bind_r; [bar|intros _].
  apply aborts_bind_l, run_preprocessing_aborts.
Qed.

(** X25.  An external function that fails inside a stage ends the run with
    its own exception: here the first external call of a run on a video input. *)
Lemma dub_ad_raises_the_error_of_split_audio_video s e w :
  slot_is_video (self_dict s) = None ->
  is_video (input_file cfg) = Ret true ->
  video_processing_split_audio_video E (input_file cfg) (output_directory cfg)
    (outside s) = (Raise e, w) ->
  fst (dub_ad E cfg s) = Raise e.
Proof.
  intros Hslot Hvideo Hsplit.
  unfold dub_ad, dub_ad_with, run_preprocessing, Dubber_is_video,
    cached_property, lift, foreign, logging_info, bind.
  simpl. rewrite Hslot, Hvideo. simpl. now rewrite Hsplit.
Qed.

(** *** The progress bar *)

Lemma progress_bar_total s bar s' :
  slot_progress_bar (self_dict s) = None ->
  progress_bar cfg s = (Ret bar, s') ->
  total bar = (if clean_up cfg then 6 else 5) ∧ n bar = 0.
Proof.
  intros Hnone. unfold progress_bar, cached_property. rewrite Hnone. simpl.
  intros [= <- _]. simpl. now destruct (clean_up cfg).
Qed.

Lemma progress_bar_update_adds k s :
  ∃ s', progress_bar_update cfg k s = (Ret tt, s')
        ∧ progress s' = progress s + k.
Proof.
  unfold progress_bar_update, progress_bar, cached_property, bind, progress.
  destruct (slot_progress_bar (self_dict s)) as [bar|] eqn:Hbar; simpl.
  - eexists. split; [reflexivity|]. simpl. reflexivity.
  - eexists. split; [reflexivity|]. simpl. reflexivity.
Qed.

Lemma keeps_bar_for_each {A} (body : A -> M world unit) xs :
  (∀ x, keeps_bar (body x)) -> keeps_bar (for_each body xs).
Proof.
  intros Hbody. induction xs as [|x xs IH]; simpl.
  - apply keeps_bar_ret.
  - apply keeps_bar_bind; [apply Hbody | intros _; exact IH].
Qed.

Lemma keeps_bar_clean_loop keep_files : keeps_bar (clean_loop E cfg keep_files).
Proof.
  unfold clean_loop. apply keeps_bar_bind; [bar|intros listing].
  apply keeps_bar_for_each. intros filename. unfold clean_entry. bar.
Qed.

(** One step of a run that returns and keeps the bar leaves the counter
    where it was. *)
Lemma keeps_bar_step {A} (m : M world A) s a s' :
  keeps_bar m -> m s = (Ret a, s') -> progress s' = progress s.
Proof.
  intros Hm Hs. specialize (Hm s). rewrite Hs in Hm. simpl in Hm.
  unfold progress. now rewrite Hm.
Qed.

(** Peels the first bind off a hypothesis [H] that says a computation
    returned, and records that the counter did not move during that step. *)
Ltac peel H :=
  let a := fresh "a" in
  let s1 := fresh "s" in
  let Hstep := fresh "Hstep" in
  let Hsame := fresh "Hsame" in
  apply bind_Ret_inv in H as (a & s1 & Hstep & H);
  match type of Hstep with
  | ?m ?s0 = _ =>
    assert (Hsame : progress s1 = progress s0)
      by (apply (keeps_bar_step m s0 a s1); [bar | exact Hstep])
  end.

(** The closing statements shared by the stages that report progress: one
    log record, one [update(1)], the return. *)
Lemma stage_epilogue_advances {A} fmt (v : A) s r s' :
  (logging_info fmt [] ;; progress_bar_update cfg 1 ;; ret v) s = (Ret r, s') ->
  progress s' = progress s + 1.
Proof.
  intros H.
  apply bind_Ret_inv in H as ([] & s1 & Hlog & H).
  apply bind_Ret_inv in H as ([] & s2 & Hup & H).
  injection H as _ <-. injection Hlog as <-.
  destruct (progress_bar_update_adds 1 (add_log {| log_level := INFO;
              log_format := fmt; log_args := [] |} s)) as (s3 & Hs3 & Hadd).
  rewrite Hs3 in Hup. injection Hup as <-. exact Hadd.
Qed.

(** X18.  When [run_postprocessing] returns, it has advanced the counter by
    exactly one. *)
Lemma run_postprocessing_advances s v s' :
  run_postprocessing E cfg s = (Ret v, s') -> progress s' = progress s + 1.
Proof.
  unfold run_postprocessing. intros H.
  do 7 peel H.
  apply stage_epilogue_advances in H. lia.
Qed.

(** X20.  When the cleanup stage returns, it has advanced the counter by
    exactly one. *)
Lemma run_clean_directory_body_advances keep_files s s' :
  run_clean_directory_body E cfg keep_files s = (Ret tt, s') ->
  progress s' = progress s + 1.
Proof.
  unfold run_clean_directory_body. intros H.
  apply bind_Ret_inv in H as (final & s1 & Hfinal & H).
  assert (H1 := keeps_bar_step _ _ _ _ keeps_bar_postprocessing_output Hfinal).
  apply bind_Ret_inv in H as ([] & s2 & Hloop & H).
  assert (H2 := keeps_bar_step _ _ _ _ (keeps_bar_clean_loop [final]) Hloop).
  apply bind_Ret_inv in H as ([] & s3 & Hlog & H).
  injection Hlog as <-.
  destruct (progress_bar_update_adds 1 (add_log {| log_level := INFO;
              log_format := "Temporary artifacts are now removed.";
              log_args := [] |} s2)) as (s4 & Hs4 & Hadd).
  rewrite Hs4 in H. injection H as <-.
  unfold progress in *. simpl in *. lia.
Qed.

(** *** Saving the utterance metadata *)

Lemma run_save_utterance_metadata_unfold s :
  run_save_utterance_metadata E cfg s
  = (Ret (os_path_join (output_directory cfg) _UTTERNACE_METADATA_FILE_NAME),
     match write_utterance_metadata E
             (os_path_join (output_directory cfg) _UTTERNACE_METADATA_FILE_NAME) s
     with
     | (Ret _, s1) => s1
     | (Raise e, s1) => add_log (save_warning e) s1
     end).
Proof.
  unfold run_save_utterance_metadata, bind, try_except.
  destruct (write_utterance_metadata E _ s) as [[u|e] s1]; reflexivity.
Qed.

Lemma keeps_bar_run_save_utterance_metadata :
  keeps_bar (run_save_utterance_metadata E cfg).
Proof. unfold run_save_utterance_metadata, write_utterance_metadata. bar. Qed.

(** While no synthesis output is cached, which is always the case for a
    [Dubber] that only its own methods have touched, the write raises. *)
Lemma write_utterance_metadata_raises path s :
  slot_text_to_speech_output (self_dict s) = None ->
  ∃ e s', write_utterance_metadata E path s = (Raise e, s').
Proof.
  intros Hnone.
  unfold write_utterance_metadata, with_statement, bind, foreign.
  destruct (gfile_GFile_w E path (outside s)) as [[f|e] w]; [|eauto].
  unfold text_to_speech_output at 1. unfold cached_property. simpl.
  rewrite Hnone. simpl.
  destruct (gfile_GFile_exit E f w) as [[u|e'] w']; eauto.
Qed.

End DubberFacts.

(** ** The cached stage outputs *)

Section StageOutputs.

Context {world : Type}.
Implicit Types s : state world.

(** C1.  On a [Dubber] with no stage output cached, reading any of the five
    cached stage outputs raises [AttributeError] and leaves the state exactly
    as it was: no external function has been called and nothing is cached, so
    a second read raises again instead of returning a cached value.  The
    functions behind the five properties call [self.preprocessing],
    [self.speech_to_text] and [self.postprocessing], names the class does not
    define. *)
Theorem stage_output_read_raises_and_caches_nothing s :
  no_stage_cached (self_dict s) ->
  preprocesing_output s = (Raise (AttributeError "Dubber" "preprocessing"), s)
  ∧ speech_to_text_output s = (Raise (AttributeError "Dubber" "speech_to_text"), s)
  ∧ translation_output s = (Raise (AttributeError "Dubber" "speech_to_text"), s)
  ∧ text_to_speech_output s = (Raise (AttributeError "Dubber" "speech_to_text"), s)
  ∧ postprocessing_output s = (Raise (AttributeError "Dubber" "postprocessing"), s)
  ∧ (preprocesing_output ;; preprocesing_output) s
    = (Raise (AttributeError "Dubber" "preprocessing"), s).
Proof.
  intros (H1 & H2 & H3 & H4 & H5).
  assert (Hpre : preprocesing_output s
                 = (Raise (AttributeError "Dubber" "preprocessing"), s))
    by now apply cached_undefined.
  repeat split; try (now apply cached_undefined).
  now apply bind_Raise.
Qed.

(** C2.  On a [Dubber] with no stage output cached, the translation output
    and the synthesis output are obtained exactly as the transcription output
    is: all three reads evaluate [self.speech_to_text()], with the same
    outcome, an [AttributeError] for that name, and the same unchanged state.
    Neither the translation stage nor the synthesis stage is involved. *)
Theorem translation_and_synthesis_outputs_repeat_transcription s :
  no_stage_cached (self_dict s) ->
  translation_output s = speech_to_text_output s
  ∧ text_to_speech_output s = speech_to_text_output s
  ∧ speech_to_text_output s
    = (Raise (AttributeError "Dubber" "speech_to_text"), s)
  ∧ calls (snd (translation_output s)) = calls s
  ∧ calls (snd (text_to_speech_output s)) = calls s.
Proof.
  intros (H1 & H2 & H3 & H4 & H5).
  assert (Hs : speech_to_text_output s
               = (Raise (AttributeError "Dubber" "speech_to_text"), s))
    by now apply cached_undefined.
  assert (Ht : translation_output s
               = (Raise (AttributeError "Dubber" "speech_to_text"), s))
    by now apply cached_undefined.
  assert (Hv : text_to_speech_output s
               = (Raise (AttributeError "Dubber" "speech_to_text"), s))
    by now apply cached_undefined.
  rewrite Hs, Ht, Hv. repeat split.
Qed.

End StageOutputs.

(** ** The run *)

Section RunFacts.

Context {world handle : Type}.
Variable E : @externals world handle.
Variable cfg : config.
Implicit Types s : state world.

(** C3.  [dub_ad] never returns a path: whatever the configuration, the
    state and the behaviour of the external functions, it raises.  Its first
    stage, [run_preprocessing], already raises from every state (at the
    latest when [pyannote_pipeline] calls [get_api_token] with positional
    arguments), so no later stage is reached. *)
Theorem dub_ad_never_returns s :
  ∃ e s', dub_ad E cfg s = (Raise e, s').
Proof.
  destruct (dub_ad_aborts E cfg s) as (e & s' & H & _). eauto.
Qed.

(** C9.  No run of [dub_ad] advances the progress counter: it is the same
    after the run as before, and still 0, with no bar created, after a run on
    a fresh [Dubber].  It therefore never ends at 5 or 6. *)
Theorem dub_ad_never_advances_progress s :
  progress (snd (dub_ad E cfg s)) = progress s
  ∧ ∀ w, progress (snd (dub_ad E cfg (Dubber_init w))) = 0
         ∧ slot_progress_bar (self_dict (snd (dub_ad E cfg (Dubber_init w)))) = None.
Proof.
  assert (Hbar : ∀ s0, slot_progress_bar (self_dict (snd (dub_ad E cfg s0)))
                       = slot_progress_bar (self_dict s0)).
  { intros s0. destruct (dub_ad_aborts E cfg s0) as (e & s' & H & Hb).
    now rewrite H. }
  split.
  - unfold progress. now rewrite Hbar.
  - intros w. unfold progress. now rewrite Hbar.
Qed.

(** C10.  [run_save_utterance_metadata] returns the path of the metadata
    file, the output directory joined with [utterance_metadata.json], from
    every state and whatever the external functions do; so the value
    returned when the write fails is the value returned when it succeeds. *)
Theorem run_save_utterance_metadata_returns_the_path
    (E' : @externals world handle) s s' :
  fst (run_save_utterance_metadata E cfg s)
  = Ret (os_path_join (output_directory cfg) "utterance_metadata.json")
  ∧ fst (run_save_utterance_metadata E cfg s)
    = fst (run_save_utterance_metadata E' cfg s').
Proof.
  rewrite !run_save_utterance_metadata_unfold. simpl.
  split; reflexivity.
Qed.

(** *** Cleaning the output directory *)

Lemma for_each_app {A} (body : A -> M world unit) xs ys s s1 :
  for_each body xs s = (Ret tt, s1) ->
  for_each body (xs ++ ys)%list s = for_each body ys s1.
Proof.
  revert s. induction xs as [|x xs IH]; intros s; simpl.
  - now intros [= <-].
  - intros H. apply bind_Ret_inv in H as ([] & s2 & Hx & Hrest).
    rewrite (bind_Ret _ _ _ _ _ Hx). now apply IH.
Qed.

(** C4, as the code has it.  The loop of the cleanup stage leaves alone
    every entry whose name is in the keep list; any other entry that exists
    is handed to [tf.io.gfile.remove], and the outcome of that call is the
    outcome of the turn; and the loop stops at the first turn that raises:
    the error leaves the loop at once, in the state of the failed turn, so
    that no entry listed after it is attempted. *)
Theorem cleanup_stops_at_the_first_failed_deletion (keep_files : list string) :
  (∀ filename s,
     filename ∈ keep_files ->
     clean_entry E cfg keep_files filename s = (Ret tt, s))
  ∧ (∀ filename s w,
       filename ∉ keep_files ->
       gfile_exists E (os_path_join (output_directory cfg) filename) (outside s)
       = (Ret true, w) ->
       clean_entry E cfg keep_files filename s
       = foreign "tf.io.gfile.remove"
           (gfile_remove E (os_path_join (output_directory cfg) filename))
           (add_call "tf.io.gfile.exists" w s))
  ∧ (∀ before filename after s w s1 e s2,
       gfile_listdir E (output_directory cfg) (outside s)
       = (Ret (before ++ filename :: after)%list, w) ->
       for_each (clean_entry E cfg keep_files) before
         (add_call "tf.io.gfile.listdir" w s) = (Ret tt, s1) ->
       clean_entry E cfg keep_files filename s1 = (Raise e, s2) ->
       clean_loop E cfg keep_files s = (Raise e, s2)).
Proof.
  split; [|split].
  - intros filename s Hin. unfold clean_entry.
    now rewrite bool_decide_eq_true_2.
  - intros filename s w Hnot Hex. unfold clean_entry.
    rewrite bool_decide_eq_false_2 by exact Hnot.
    unfold bind at 1. unfold foreign at 1. now rewrite Hex.
  - intros before filename after s w s1 e s2 Hlist Hbefore Hfail.
    unfold clean_loop, bind at 1. unfold foreign at 1. rewrite Hlist.
    rewrite (for_each_app _ _ _ _ _ Hbefore). simpl.
    now apply bind_Raise.
Qed.

(** *** The failure policy of the run *)

(** A read of the final output returns only what the slot already holds. *)
Lemma postprocessing_output_Ret_inv s v s' :
  postprocessing_output s = (Ret v, s') ->
  s' = s ∧ slot_postprocessing_output (self_dict s) = Some v.
Proof.
  unfold postprocessing_output, cached_property, undefined_attribute, raise.
  destruct (slot_postprocessing_output (self_dict s)) as [v0|]; intros H.
  - injection H as <- <-. now split.
  - discriminate.
Qed.

Section Stages.

Variable stage_preprocessing : M world PreprocessingArtifacts.
Variables stage_speech_to_text stage_translation stage_text_to_speech
  : M world metadata.
Variable stage_postprocessing : M world string.
Variable stage_clean_directory : list (list string) -> M world unit.

Local Abbreviation save := (run_save_utterance_metadata E cfg).
Local Abbreviation run :=
  (dub_ad_with cfg stage_preprocessing stage_speech_to_text stage_translation
     stage_text_to_speech (run_save_utterance_metadata E cfg)
     stage_postprocessing stage_clean_directory).
Local Abbreviation metadata_file :=
  (os_path_join (output_directory cfg) _UTTERNACE_METADATA_FILE_NAME).

Lemma run_after_four_stages s0 s4 :
  four_stages_return stage_preprocessing stage_speech_to_text
    stage_translation stage_text_to_speech s0 s4 ->
  run s0
  = (stage_postprocessing ;;
     (if clean_up cfg then stage_clean_directory [] else ret tt) ;;
     dub_ad_report) (snd (save s4)).
Proof.
  intros (a1 & s1 & a2 & s2 & a3 & s3 & a4 & H1 & H2 & H3 & H4).
  unfold dub_ad_with.
  unfold bind at 1. unfold logging_info at 1. fold (started s0).
  rewrite (bind_Ret _ _ _ _ _ H1), (bind_Ret _ _ _ _ _ H2),
    (bind_Ret _ _ _ _ _ H3), (bind_Ret _ _ _ _ _ H4).
  unfold bind at 1. rewrite run_save_utterance_metadata_unfold. reflexivity.
Qed.

(** The failure policy written into the body of [dub_ad], whatever its stage
    methods do.  [run_save_utterance_metadata] returns the path of the
    metadata file from every state; when the guarded write raises, the
    exception is replaced by one warning-level log record that carries it.
    Once the first four stages have returned, the body continues with the
    postprocessing stage from the state the save stage leaves, whether or not
    the write failed.  An exception raised by any other stage leaves the body
    at once, unchanged, in the state in which it was raised.  With the stage
    methods of the source the first four stages never all return: what
    [dub_ad] itself does is settled further down, with the traces of the
    stages. *)
Lemma dub_ad_with_swallows_only_the_metadata_write :
  (∀ s, ∃ s',
     run_save_utterance_metadata E cfg s
     = (Ret (os_path_join (output_directory cfg) _UTTERNACE_METADATA_FILE_NAME),
        s'))
  ∧ (∀ s e s1,
       write_utterance_metadata E
         (os_path_join (output_directory cfg) _UTTERNACE_METADATA_FILE_NAME) s
       = (Raise e, s1) ->
       run_save_utterance_metadata E cfg s
       = (Ret (os_path_join (output_directory cfg) _UTTERNACE_METADATA_FILE_NAME),
          add_log (save_warning e) s1))
  ∧ (∀ s0 s4,
       four_stages_return stage_preprocessing stage_speech_to_text
         stage_translation stage_text_to_speech s0 s4 ->
       dub_ad_with cfg stage_preprocessing stage_speech_to_text
         stage_translation stage_text_to_speech
         (run_save_utterance_metadata E cfg) stage_postprocessing
         stage_clean_directory s0
       = (stage_postprocessing ;;
          (if clean_up cfg then stage_clean_directory [] else ret tt) ;;
          dub_ad_report) (snd (run_save_utterance_metadata E cfg s4)))
  ∧ (∀ s0 e s1,
       stage_preprocessing (started s0) = (Raise e, s1) ->
       dub_ad_with cfg stage_preprocessing stage_speech_to_text
         stage_translation stage_text_to_speech
         (run_save_utterance_metadata E cfg) stage_postprocessing
         stage_clean_directory s0 = (Raise e, s1))
  ∧ (∀ s0 a1 s1 e s2,
       stage_preprocessing (started s0) = (Ret a1, s1) ->
       stage_speech_to_text s1 = (Raise e, s2) ->
       dub_ad_with cfg stage_preprocessing stage_speech_to_text
         stage_translation stage_text_to_speech
         (run_save_utterance_metadata E cfg) stage_postprocessing
         stage_clean_directory s0 = (Raise e, s2))
  ∧ (∀ s0 a1 s1 a2 s2 e s3,
       stage_preprocessing (started s0) = (Ret a1, s1) ->
       stage_speech_to_text s1 = (Ret a2, s2) ->
       stage_translation s2 = (Raise e, s3) ->
       dub_ad_with cfg stage_preprocessing stage_speech_to_text
         stage_translation stage_text_to_speech
         (run_save_utterance_metadata E cfg) stage_postprocessing
         stage_clean_directory s0 = (Raise e, s3))
  ∧ (∀ s0 a1 s1 a2 s2 a3 s3 e s4,
       stage_preprocessing (started s0) = (Ret a1, s1) ->
       stage_speech_to_text s1 = (Ret a2, s2) ->
       stage_translation s2 = (Ret a3, s3) ->
       stage_text_to_speech s3 = (Raise e, s4) ->
       dub_ad_with cfg stage_preprocessing stage_speech_to_text
         stage_translation stage_text_to_speech
         (run_save_utterance_metadata E cfg) stage_postprocessing
         stage_clean_directory s0 = (Raise e, s4))
  ∧ (∀ s0 s4 e s6,
       four_stages_return stage_preprocessing stage_speech_to_text
         stage_translation stage_text_to_speech s0 s4 ->
       stage_postprocessing (snd (run_save_utterance_metadata E cfg s4))
       = (Raise e, s6) ->
       dub_ad_with cfg stage_preprocessing stage_speech_to_text
         stage_translation stage_text_to_speech
         (run_save_utterance_metadata E cfg) stage_postprocessing
         stage_clean_directory s0 = (Raise e, s6))
  ∧ (∀ s0 s4 a5 s6 e s7,
       four_stages_return stage_preprocessing stage_speech_to_text
         stage_translation stage_text_to_speech s0 s4 ->
       stage_postprocessing (snd (run_save_utterance_metadata E cfg s4))
       = (Ret a5, s6) ->
       clean_up cfg = true ->
       stage_clean_directory [] s6 = (Raise e, s7) ->
       dub_ad_with cfg stage_preprocessing stage_speech_to_text
         stage_translation stage_text_to_speech
         (run_save_utterance_metadata E cfg) stage_postprocessing
         stage_clean_directory s0 = (Raise e, s7)).
Proof.
  repeat apply conj.
  - intros s. rewrite run_save_utterance_metadata_unfold. eauto.
  - intros s e s1 H. rewrite run_save_utterance_metadata_unfold. now rewrite H.
  - apply run_after_four_stages.
  - intros s0 e s1 H1. unfold dub_ad_with.
    unfold bind at 1. unfold logging_info at 1. fold (started s0).
    now apply bind_Raise.
  - intros s0 a1 s1 e s2 H1 H2. unfold dub_ad_with.
    unfold bind at 1. unfold logging_info at 1. fold (started s0).
    rewrite (bind_Ret _ _ _ _ _ H1). now apply bind_Raise.
  - intros s0 a1 s1 a2 s2 e s3 H1 H2 H3. unfold dub_ad_with.
    unfold bind at 1. unfold logging_info at 1. fold (started s0).
    rewrite (bind_Ret _ _ _ _ _ H1), (bind_Ret _ _ _ _ _ H2).
    now apply bind_Raise.
  - intros s0 a1 s1 a2 s2 a3 s3 e s4 H1 H2 H3 H4. unfold dub_ad_with.
    unfold bind at 1. unfold logging_info at 1. fold (started s0).
    rewrite (bind_Ret _ _ _ _ _ H1), (bind_Ret _ _ _ _ _ H2),
      (bind_Ret _ _ _ _ _ H3).
    now apply bind_Raise.
  - intros s0 s4 e s6 Hfour Hpost.
    rewrite (run_after_four_stages _ _ Hfour). now apply bind_Raise.
  - intros s0 s4 a5 s6 e s7 Hfour Hpost Hclean Hfail.
    rewrite (run_after_four_stages _ _ Hfour).
    rewrite (bind_Ret _ _ _ _ _ Hpost). rewrite Hclean.
    now apply bind_Raise.
Qed.

(** X23.  Whatever the stage methods do, a run that returns hands back the
    value it finds cached under [postprocessing_output] at the end, not the value
    its postprocessing stage returned. *)
Lemma dub_ad_with_returns_the_cached_output s v s' :
  dub_ad_with cfg stage_preprocessing stage_speech_to_text stage_translation
    stage_text_to_speech (run_save_utterance_metadata E cfg)
    stage_postprocessing stage_clean_directory s = (Ret v, s') ->
  slot_postprocessing_output (self_dict s') = Some v.
Proof.
  unfold dub_ad_with, dub_ad_report. intros H.
  do 12 (let a := fresh "a" in let s1 := fresh "s" in let Hs := fresh "Hs" in
         apply bind_Ret_inv in H as (a & s1 & Hs & H)).
  apply postprocessing_output_Ret_inv in H as [-> Hslot]. exact Hslot.
Qed.

(** X24.  The count the bar is dimensioned for.  If each of the five data stages
    and the cleanup stage advances the counter by one whenever it returns, as
    the closing statements of the methods of the source would, then a run
    that returns has advanced it by 6 with cleanup and by 5 without: the save
    stage does not count. *)
Lemma dub_ad_with_progress_by_design s v s' :
  (∀ s1 a s2, stage_preprocessing s1 = (Ret a, s2) ->
              progress s2 = progress s1 + 1) ->
  (∀ s1 a s2, stage_speech_to_text s1 = (Ret a, s2) ->
              progress s2 = progress s1 + 1) ->
  (∀ s1 a s2, stage_translation s1 = (Ret a, s2) ->
              progress s2 = progress s1 + 1) ->
  (∀ s1 a s2, stage_text_to_speech s1 = (Ret a, s2) ->
              progress s2 = progress s1 + 1) ->
  (∀ s1 a s2, stage_postprocessing s1 = (Ret a, s2) ->
              progress s2 = progress s1 + 1) ->
  (∀ s1 a s2, stage_clean_directory [] s1 = (Ret a, s2) ->
              progress s2 = progress s1 + 1) ->
  dub_ad_with cfg stage_preprocessing stage_speech_to_text stage_translation
    stage_text_to_speech (run_save_utterance_metadata E cfg)
    stage_postprocessing stage_clean_directory s = (Ret v, s') ->
  progress s' = progress s + (if clean_up cfg then 6 else 5).
Proof.
  intros Hpre Hs2t Htr Htts Hpost Hclean H.
  unfold dub_ad_with, dub_ad_report in H.
  apply bind_Ret_inv in H as (a0 & s0 & H0 & H).
  apply bind_Ret_inv in H as (a1 & s1 & H1 & H).
  apply bind_Ret_inv in H as (a2 & s2 & H2 & H).
  apply bind_Ret_inv in H as (a3 & s3 & H3 & H).
  apply bind_Ret_inv in H as (a4 & s4 & H4 & H).
  apply bind_Ret_inv in H as (a5 & s5 & H5 & H).
  apply bind_Ret_inv in H as (a6 & s6 & H6 & H).
  apply bind_Ret_inv in H as (a7 & s7 & H7 & H).
  apply bind_Ret_inv in H as (a8 & s8 & H8 & H).
  apply bind_Ret_inv in H as (a9 & s9 & H9 & H).
  apply bind_Ret_inv in H as (a10 & s10 & H10 & H).
  apply bind_Ret_inv in H as (a11 & s11 & H11 & H).
  apply (keeps_bar_step _ _ _ _ (keeps_bar_logging_info _ _)) in H0.
  apply Hpre in H1. apply Hs2t in H2. apply Htr in H3. apply Htts in H4.
  apply (keeps_bar_step _ _ _ _ (keeps_bar_run_save_utterance_metadata E cfg))
    in H5.
  apply Hpost in H6.
  apply (keeps_bar_step _ _ _ _ (keeps_bar_logging_info _ _)) in H8.
  apply (keeps_bar_step _ _ _ _ (keeps_bar_logging_info _ _)) in H9.
  apply (keeps_bar_step _ _ _ _ keeps_bar_postprocessing_output) in H10.
  apply (keeps_bar_step _ _ _ _ (keeps_bar_logging_info _ _)) in H11.
  apply (keeps_bar_step _ _ _ _ keeps_bar_postprocessing_output) in H.
  destruct (clean_up cfg).
  - apply Hclean in H7. lia.
  - injection H7 as _ <-. lia.
Qed.

End Stages.

End RunFacts.

(** ** The remote asset readiness poller *)

Section PollerFacts.

Context {remote handle : Type}.
Variable query_status : handle -> remote -> asset_state * remote.
Variable sleep : nat -> remote -> remote.
Variables max_wait poll_interval : nat.

Local Abbreviation loop := (poll query_status sleep max_wait poll_interval).

(** With a positive interval the loop ends before the bound on the number of
    queries is reached. *)
Lemma poll_total fuel h elapsed asked r :
  (0 < poll_interval)%nat ->
  (0 < fuel)%nat ->
  (max_wait + 2 <= fuel + elapsed)%nat ->
  ∃ report, loop fuel h elapsed asked r = Some report.
Proof.
  intros Hpos. revert elapsed asked r.
  induction fuel as [|fuel IH]; intros elapsed asked r Hsome Hfuel; simpl.
  - lia.
  - destruct (query_status h r) as [[ | | ] r1]; eauto.
    destruct (max_wait <? elapsed)%nat eqn:Hlate; eauto.
    apply Nat.ltb_ge in Hlate. apply IH; lia.
Qed.

(** A handle that stays pending is given up on once the time slept exceeds
    [max_wait]. *)
Lemma poll_pending_times_out fuel h elapsed asked r :
  (0 < poll_interval)%nat ->
  (∀ r', fst (query_status h r') = pending) ->
  (0 < fuel)%nat ->
  (max_wait + 2 <= fuel + elapsed)%nat ->
  ∃ report, loop fuel h elapsed asked r = Some report
            ∧ verdict report = Some RemoteAssetTimeout
            ∧ (max_wait < waited report)%nat.
Proof.
  intros Hpos Hpending. revert elapsed asked r.
  induction fuel as [|fuel IH]; intros elapsed asked r Hsome Hfuel; simpl.
  - lia.
  - specialize (Hpending r) as Hr.
    destruct (query_status h r) as [st r1]. simpl in Hr. subst st.
    destruct (max_wait <? elapsed)%nat eqn:Hlate.
    + apply Nat.ltb_lt in Hlate. eexists. repeat split. exact Hlate.
    + apply Nat.ltb_ge in Hlate. apply IH; lia.
Qed.


End PollerFacts.

(** ** The diarization response parser *)

Lemma append_nil_string (b : string) : "" +:+ b = b.
Proof. reflexivity. Qed.

Lemma append_cons_string x (a b : string) : String x a +:+ b = String x (a +:+ b).
Proof. reflexivity. Qed.

Lemma append_assoc_string (a b c : string) : (a +:+ b) +:+ c = a +:+ (b +:+ c).
Proof.
  induction a as [|x a IH]; [reflexivity|].
  rewrite !append_cons_string. now f_equal.
Qed.

Lemma no_char_app c a b :
  no_char c (a +:+ b) = (no_char c a && no_char c b)%bool.
Proof.
  unfold no_char. induction a as [|x a IH]; [reflexivity|].
  rewrite append_cons_string. simpl. rewrite IH. apply andb_assoc.
Qed.

Lemma no_char_cons c x s :
  no_char c (String x s) = true -> Ascii.eqb x c = false ∧ no_char c s = true.
Proof.
  unfold no_char. simpl. intros [H1 H2]%andb_prop.
  split; [now apply negb_true_iff in H1 | exact H2].
Qed.

Lemma splitlines_app_newline l t :
  no_char newline l = true ->
  splitlines (l +:+ String newline t) = l :: splitlines t.
Proof.
  induction l as [|c l IH]; intros H.
  - rewrite append_nil_string. simpl. now rewrite ?Ascii.eqb_refl.
  - apply no_char_cons in H as [Hc Hl]. rewrite append_cons_string. simpl.
    rewrite Hc. now rewrite (IH Hl).
Qed.

Lemma splitlines_one_line l :
  l ≠ "" -> no_char newline l = true -> splitlines l = [l].
Proof.
  induction l as [|c l IH]; intros Hne H; [congruence|].
  apply no_char_cons in H as [Hc Hl]. simpl. rewrite Hc.
  destruct l as [|c' l'].
  - reflexivity.
  - rewrite IH; [reflexivity | discriminate | exact Hl].
Qed.

Lemma splitlines_unlines lines :
  Forall (λ l, no_char newline l = true) lines ->
  splitlines (unlines lines) = lines.
Proof.
  induction 1 as [|l lines Hl _ IH]; simpl; [reflexivity|].
  now rewrite splitlines_app_newline, IH.
Qed.

Lemma splitlines_join_lines lines :
  Forall (λ l, l ≠ "" ∧ no_char newline l = true) lines ->
  splitlines (join_lines lines) = lines.
Proof.
  induction 1 as [|l lines [Hne Hl] Hrest IH]; [reflexivity|].
  destruct lines as [|l' lines'].
  - simpl. now apply splitlines_one_line.
  - change (join_lines (l :: l' :: lines'))
      with (l +:+ String newline (join_lines (l' :: lines'))).
    now rewrite splitlines_app_newline, IH.
Qed.

Lemma split_on_whole sep s :
  no_char sep s = true -> split_on sep s = [s].
Proof.
  induction s as [|c s IH]; intros H; [reflexivity|].
  apply no_char_cons in H as [Hc Hs]. simpl. rewrite Hc.
  now rewrite (IH Hs).
Qed.

Lemma split_on_app sep s t :
  no_char sep s = true ->
  split_on sep (s +:+ String sep t) = s :: split_on sep t.
Proof.
  induction s as [|c s IH]; intros H.
  - rewrite append_nil_string. simpl. now rewrite ?Ascii.eqb_refl.
  - apply no_char_cons in H as [Hc Hs]. rewrite append_cons_string. simpl.
    rewrite Hc. now rewrite (IH Hs).
Qed.

Lemma chop_last c x : chop c (x +:+ String c "") = Some x.
Proof.
  induction x as [|a x IH].
  - rewrite append_nil_string. simpl. now rewrite ?Ascii.eqb_refl.
  - rewrite append_cons_string. simpl.
    destruct (x +:+ String c "") eqn:Hx.
    + destruct x; discriminate.
    + now rewrite IH.
Qed.

Lemma valid_label_facts s :
  valid_label s = true ->
  s ≠ "" ∧ no_char "," s = true ∧ no_char newline s = true ∧ strip s = s.
Proof.
  unfold valid_label. rewrite !andb_true_iff.
  intros [[[H1 H2] H3] H4]. repeat split; try assumption.
  - intros ->. discriminate.
  - now apply String.eqb_eq.
Qed.

Lemma unparen_render_line t :
  unparen (render_line t) = Some (fst t +:+ ", " +:+ snd t).
Proof.
  unfold render_line. rewrite append_cons_string, append_nil_string.
  cbn [unparen]. rewrite Ascii.eqb_refl.
  replace (fst t +:+ ", " +:+ snd t +:+ ")")
    with ((fst t +:+ ", " +:+ snd t) +:+ ")")
    by now rewrite !append_assoc_string.
  apply chop_last.
Qed.

(** A written tuple reads back as itself. *)
Lemma parse_line_render_line t :
  valid_tuple t = true -> parse_line (render_line t) = Parsed t.
Proof.
  destruct t as [s g]. unfold valid_tuple. simpl.
  intros [Hs Hg]%andb_prop.
  apply valid_label_facts in Hs as (Hs1 & Hs2 & Hs3 & Hs4).
  apply valid_label_facts in Hg as (Hg1 & Hg2 & Hg3 & Hg4).
  unfold parse_line. rewrite unparen_render_line. simpl fst. simpl snd.
  change (s +:+ ", " +:+ g) with (s +:+ String "," (String " " g)).
  rewrite split_on_app by exact Hs2.
  rewrite split_on_whole by (unfold no_char in *; simpl; exact Hg2).
  assert (Hsp : strip (String " " g) = g) by exact Hg4.
  rewrite Hsp, Hs4.
  destruct (String.eqb s "") eqn:E1; [apply String.eqb_eq in E1; congruence|].
  destruct (String.eqb g "") eqn:E2; [apply String.eqb_eq in E2; congruence|].
  reflexivity.
Qed.

Lemma render_line_one_line t :
  valid_tuple t = true ->
  render_line t ≠ "" ∧ no_char newline (render_line t) = true.
Proof.
  destruct t as [s g]. unfold valid_tuple. simpl.
  intros [Hs Hg]%andb_prop.
  apply valid_label_facts in Hs as (_ & _ & Hs3 & _).
  apply valid_label_facts in Hg as (_ & _ & Hg3 & _).
  split; [discriminate|].
  unfold render_line. simpl fst. simpl snd.
  rewrite !no_char_app, Hs3, Hg3. reflexivity.
Qed.

Lemma parse_lines_rendered tuples :
  Forall (λ t, valid_tuple t = true) tuples ->
  parse_lines (map render_line tuples) = Parsed tuples.
Proof.
  induction 1 as [|t tuples Ht _ IH]; simpl; [reflexivity|].
  now rewrite parse_line_render_line, IH.
Qed.

Lemma parse_line_malformed line :
  malformed line -> parse_line line = ParseError line.
Proof.
  unfold parse_line. intros [Hmiss | (inner & Hin & Hcount)].
  - unfold missing_parentheses in Hmiss. now rewrite Hmiss.
  - rewrite Hin.
    destruct (split_on "," inner) as [|a [|b [|c rest]]]; try reflexivity.
    now contradiction Hcount.
Qed.

Lemma parse_lines_first_malformed before bad after :
  Forall (λ t, valid_tuple t = true) before ->
  malformed bad ->
  parse_lines (map render_line before ++ bad :: after)%list = ParseError bad.
Proof.
  intros Hbefore Hbad.
  induction Hbefore as [|t before Ht _ IH]; simpl.
  - now rewrite parse_line_malformed.
  - now rewrite parse_line_render_line, IH.
Qed.


(** ** Attribution *)

(** C8.  [add_speaker_info] raises a [ValueError] whenever the two lists
    differ in length, whichever is longer.  On lists of equal length it
    returns a list of that length in which the utterance at each position
    carries the speaker and the gender of the tuple at the same position,
    under [speaker_id] and [ssml_gender], and has every other field exactly
    as before. *)
Theorem add_speaker_info_attaches_by_position
    (utterance_metadata : metadata) (speaker_info : list (string * string)) :
  (length utterance_metadata ≠ length speaker_info ->
   add_speaker_info utterance_metadata speaker_info
   = Raise (ValueError
       "The length of 'utterance_metadata' and 'speaker_info' must be the same."))
  ∧ (length utterance_metadata = length speaker_info ->
     ∃ result,
       add_speaker_info utterance_metadata speaker_info = Ret result
       ∧ length result = length utterance_metadata
       ∧ ∀ (i : nat) (u : gmap string field) (speaker : string * string),
           utterance_metadata !! i = Some u ->
           speaker_info !! i = Some speaker ->
           ∃ r : gmap string field,
             result !! i = Some r
             ∧ r !! "speaker_id" = Some (FStr (fst speaker))
             ∧ r !! "ssml_gender" = Some (FStr (snd speaker))
             ∧ ∀ key, key ≠ "speaker_id" -> key ≠ "ssml_gender" ->
                      r !! key = u !! key).
Proof.
  unfold add_speaker_info. split; intros Hlen.
  - now rewrite bool_decide_eq_false_2.
  - rewrite bool_decide_eq_true_2 by exact Hlen.
    eexists. split; [reflexivity|]. split.
    + now apply length_zip_with_l_eq.
    + intros i u speaker Hu Hsp. eexists. split.
      * rewrite lookup_zip_with, Hu, Hsp. reflexivity.
      * repeat split.
        -- rewrite lookup_insert_ne by discriminate. apply lookup_insert_eq.
        -- apply lookup_insert_eq.
        -- intros key H1 H2. now rewrite !lookup_insert_ne by congruence.
Qed.

(** ** Concrete runs *)

(** A fresh [Dubber] satisfies the premise of C1, and reading its
    preprocessing output raises. *)
Lemma stage_output_read_raises_on_a_fresh_dubber :
  no_stage_cached (self_dict (Dubber_init toy_directory))
  ∧ preprocesing_output (Dubber_init toy_directory)
    = (Raise (AttributeError "Dubber" "preprocessing"), Dubber_init toy_directory).
Proof.
  split.
  - repeat split.
  - apply (stage_output_read_raises_and_caches_nothing (Dubber_init toy_directory)).
    repeat split.
Defined.

(** A fresh [Dubber] satisfies the premise of C2, and its translation output
    is read as its transcription output is. *)
Lemma translation_output_repeats_transcription_on_a_fresh_dubber :
  no_stage_cached (self_dict (Dubber_init toy_directory))
  ∧ translation_output (Dubber_init toy_directory)
    = speech_to_text_output (Dubber_init toy_directory).
Proof.
  split.
  - repeat split.
  - apply (translation_and_synthesis_outputs_repeat_transcription
             (Dubber_init toy_directory)).
    repeat split.
Defined.

(** With external functions that all succeed, [dub_ad] on a fresh [Dubber]
    stops in [run_preprocessing] with the [TypeError] of the call of
    [get_api_token], after four external calls and before any progress. *)
Example dub_ad_with_succeeding_externals :
  let r := dub_ad toy_externals toy_config (Dubber_init toy_directory) in
  fst r = Raise (TypeError "Dubber.get_api_token" (TooManyPositional 2))
  ∧ calls (snd r) = [ "video_processing.split_audio_video";
                      "audio_processing.build_demucs_command";
                      "audio_processing.execute_demcus_command";
                      "audio_processing.assemble_split_audio_file_paths" ]
  ∧ progress (snd r) = 0.
Proof. vm_compute. repeat split. Qed.

(** Called as [dub_ad] calls it, without an argument, the cleanup stage is
    refused before it touches anything. *)
Example run_clean_directory_without_argument :
  fst (run_clean_directory toy_externals toy_config []
         (with_final_output "out/dubbed.mp4" (Dubber_init toy_directory)))
  = Raise (TypeError "Dubber.run_clean_directory" (MissingArgument "keep_files")).
Proof. reflexivity. Qed.

(** C4, against the claim as stated.  In an output directory whose first
    entry cannot be removed, the cleanup stage raises the error of that
    removal: the second entry is never tried (the trace ends with the failed
    removal) and is still there afterwards. *)
Lemma cleanup_aborts_at_a_locked_file :
  let s0 := with_final_output "out/dubbed.mp4" (Dubber_init toy_directory) in
  let r := run_clean_directory toy_externals toy_config [[]] s0 in
  fst r = Raise (Foreign "PermissionDeniedError" "out/chunk_1.mp3")
  ∧ calls (snd r)
    = ["tf.io.gfile.listdir"; "tf.io.gfile.exists"; "tf.io.gfile.remove"]
  ∧ toy_files (outside (snd r)) = ["chunk_1.mp3"; "chunk_2.mp3"; "dubbed.mp4"].
Proof. vm_compute. repeat split. Qed.

(** The same directory exercises the fail-fast part of C4. *)
Lemma cleanup_stops_at_the_locked_file :
  ∃ s2,
    clean_loop toy_externals toy_config ["out/dubbed.mp4"]
      (Dubber_init toy_directory)
    = (Raise (Foreign "PermissionDeniedError" "out/chunk_1.mp3"), s2)
    ∧ toy_files (outside s2) = ["chunk_1.mp3"; "chunk_2.mp3"; "dubbed.mp4"].
Proof.
  eexists. split.
  - apply (proj2 (proj2 (cleanup_stops_at_the_first_failed_deletion
                           toy_externals toy_config ["out/dubbed.mp4"])))
      with (before := []) (filename := "chunk_1.mp3")
           (after := ["chunk_2.mp3"; "dubbed.mp4"]) (w := toy_directory)
           (s1 := add_call "tf.io.gfile.listdir" toy_directory
                    (Dubber_init toy_directory)).
    + reflexivity.
    + reflexivity.
    + vm_compute. reflexivity.
  - reflexivity.
Defined.

(** When every removal succeeds, the loop also removes the final output:
    the keep list holds its path, the listing its bare name. *)
Example cleanup_removes_the_final_output_too :
  let w := {| toy_files := ["chunk_1.mp3"; "dubbed.mp4"]; toy_locked := [] |} in
  let r := run_clean_directory toy_externals toy_config [[]]
             (with_final_output "out/dubbed.mp4" (Dubber_init w)) in
  fst r = Ret tt ∧ toy_files (outside (snd r)) = [] ∧ progress (snd r) = 1.
Proof. vm_compute. repeat split. Qed.

(** In a read-only output directory the write of the metadata fails; the
    save stage returns the path with one warning logged, and a body of
    [dub_ad] whose first four stages were made to return goes on with
    postprocessing from there. *)
Example returning_stages_pass_a_failed_metadata_write :
  let s0 := Dubber_init toy_readonly in
  run_save_utterance_metadata toy_externals toy_config s0
  = (Ret "out/utterance_metadata.json",
     add_log (save_warning
                (Foreign "PermissionDeniedError" "out/utterance_metadata.json"))
       (add_call "tf.io.gfile.GFile" toy_readonly s0))
  ∧ four_stages_return (ret toy_artifacts) (ret []) (ret []) (ret [])
      s0 (started s0)
  ∧ dub_ad_with toy_config (ret toy_artifacts) (ret []) (ret []) (ret [])
      (run_save_utterance_metadata toy_externals toy_config)
      (ret "out/dubbed.mp4") (λ _, ret tt) s0
    = (ret "out/dubbed.mp4" ;; (λ _ : list (list string), ret tt) [] ;;
       dub_ad_report)
        (snd (run_save_utterance_metadata toy_externals toy_config (started s0))).
Proof.
  pose proof (dub_ad_with_swallows_only_the_metadata_write
                toy_externals toy_config (ret toy_artifacts) (ret []) (ret [])
                (ret []) (ret "out/dubbed.mp4") (λ _, ret tt))
    as (_ & Hwarn & Hgo & _).
  assert (Hfour : four_stages_return (world:=toy_world) (ret toy_artifacts)
                    (ret []) (ret []) (ret [])
                    (Dubber_init toy_readonly) (started (Dubber_init toy_readonly))).
  { exists toy_artifacts, (started (Dubber_init toy_readonly)),
      [], (started (Dubber_init toy_readonly)),
      [], (started (Dubber_init toy_readonly)), [].
    repeat split. }
  split; [|split].
  - apply Hwarn. reflexivity.
  - exact Hfour.
  - exact (Hgo _ _ Hfour).
Qed.



(** C8 on the inputs of [AddSpeakerInfoTest]: equal lengths attach by
    position, and one speaker for two utterances is refused. *)
Lemma add_speaker_info_on_the_test_inputs :
  length test_utterance_metadata = length test_speaker_info
  ∧ (∃ result,
       add_speaker_info test_utterance_metadata test_speaker_info = Ret result
       ∧ length result = 2%nat)
  ∧ add_speaker_info test_utterance_metadata [("speaker1", "male")]
    = Raise (ValueError
        "The length of 'utterance_metadata' and 'speaker_info' must be the same.").
Proof.
  split; [reflexivity|]. split.
  - destruct (proj2 (add_speaker_info_attaches_by_position
                       test_utterance_metadata test_speaker_info) eq_refl)
      as (result & Hres & Hlen & _).
    exists result. split; [exact Hres | exact Hlen].
  - apply (proj1 (add_speaker_info_attaches_by_position
                    test_utterance_metadata [("speaker1", "male")])).
    simpl. lia.
Defined.

(** The result on the test inputs is the dictionary list the test expects. *)
Example add_speaker_info_expected_result :
  add_speaker_info test_utterance_metadata test_speaker_info
  = Ret [ {[ "text" := FStr "Hello"; "start" := FNum (Qmake 0 1);
             "stop" := FNum (Qmake 1 1); "speaker_id" := FStr "speaker1";
             "ssml_gender" := FStr "male" ]};
          {[ "text" := FStr "world"; "start" := FNum (Qmake 1 1);
             "stop" := FNum (Qmake 2 1); "speaker_id" := FStr "speaker2";
             "ssml_gender" := FStr "female" ]} ].
Proof. vm_compute. reflexivity. Qed.

(** The two inputs of [TestProcessSpeakerDiarizationResponse]. *)
Example process_speaker_diarization_response_test_inputs :
  process_speaker_diarization_response "" = Parsed []
  ∧ process_speaker_diarization_response
      ("(speaker_1, female)" +:+ String newline "")
    = Parsed [("speaker_1", "female")].
Proof. split; reflexivity. Qed.

(** The response that [DiarizeSpeakersTest] feeds to [diarize_speakers], two
    tuples on one line, is a malformed line for the parser described by the
    specification, while that test expects two tuples back. *)
Example one_line_response_is_malformed :
  process_speaker_diarization_response "(speaker_1, Male), (speaker_2, Female)"
  = ParseError "(speaker_1, Male), (speaker_2, Female)".
Proof. reflexivity. Qed.

(** ** What the stages call before they stop *)

Section TraceFacts.

Context {world : Type}.
Implicit Types s : state world.

Lemma calls_only_weaken {A} allowed allowed' (m : M world A) :
  allowed ⊆ allowed' -> calls_only allowed m -> calls_only allowed' m.
Proof.
  intros Hsub Hm s. destruct (Hm s) as (made & Hcalls & Hmade).
  exists made. split; [exact Hcalls|]. now transitivity allowed.
Qed.

Lemma calls_only_silent {A} allowed (m : M world A) :
  (∀ s, calls (snd (m s)) = calls s) -> calls_only allowed m.
Proof.
  intros Hm s. exists []. split.
  - now rewrite Hm, app_nil_r.
  - apply list_subseteq_nil.
Qed.

Lemma calls_only_ret {A} allowed (a : A) :
  calls_only allowed (ret (world:=world) a).
Proof. now apply calls_only_silent. Qed.

Lemma calls_only_raise {A} allowed e :
  calls_only allowed (raise (world:=world) (A:=A) e).
Proof. now apply calls_only_silent. Qed.

Lemma calls_only_lift {A} allowed (o : outcome A) :
  calls_only allowed (lift (world:=world) o).
Proof. now apply calls_only_silent. Qed.

Lemma calls_only_undefined {A} allowed name :
  calls_only allowed (undefined_attribute (world:=world) (A:=A) name).
Proof. now apply calls_only_silent. Qed.

Lemma calls_only_logging_info allowed fmt args :
  calls_only allowed (logging_info (world:=world) fmt args).
Proof. now apply calls_only_silent. Qed.

Lemma calls_only_logging_warning allowed fmt args :
  calls_only allowed (logging_warning (world:=world) fmt args).
Proof. now apply calls_only_silent. Qed.

Lemma calls_only_foreign {A} allowed name (f : world -> outcome A * world) :
  name ∈ allowed -> calls_only allowed (foreign name f).
Proof.
  intros Hin s. exists [name]. unfold foreign.
  destruct (f (outside s)) as [r w]. simpl. split; [reflexivity|].
  intros x Hx. apply list_elem_of_singleton in Hx. now subst.
Qed.

Lemma calls_only_bind {A B} allowed (m : M world A) (k : A -> M world B) :
  calls_only allowed m -> (∀ a, calls_only allowed (k a)) ->
  calls_only allowed (bind m k).
Proof.
  intros Hm Hk s. destruct (Hm s) as (made & Hcalls & Hmade). unfold bind.
  destruct (m s) as [[a|e] s1]; simpl in *.
  - destruct (Hk a s1) as (made' & Hcalls' & Hmade').
    exists (made ++ made')%list. split.
    + now rewrite Hcalls', Hcalls, app_assoc.
    + intros x [Hx|Hx]%elem_of_app; auto.
  - now exists made.
Qed.

Lemma calls_only_invoke {A} allowed sg npos kws (body : M world A) :
  calls_only allowed body -> calls_only allowed (invoke sg npos kws body).
Proof.
  intros H. unfold invoke. destruct (check_call sg npos kws).
  - apply calls_only_raise.
  - exact H.
Qed.

Lemma calls_only_cached {A} allowed get set (func : M world A) :
  calls_only allowed func -> calls_only allowed (cached_property get set func).
Proof.
  intros Hf s. unfold cached_property.
  destruct (get (self_dict s)).
  - exists []. split; [now rewrite app_nil_r | apply list_subseteq_nil].
  - destruct (Hf s) as (made & Hcalls & Hmade).
    destruct (func s) as [[v|e] s1]; simpl in *; now exists made.
Qed.

Lemma calls_only_try_except {A} allowed (body : M world A) handler :
  calls_only allowed body -> (∀ e, calls_only allowed (handler e)) ->
  calls_only allowed (try_except body handler).
Proof.
  intros Hb Hh s. destruct (Hb s) as (made & Hcalls & Hmade).
  unfold try_except. destruct (body s) as [[a|e] s1]; simpl in *.
  - now exists made.
  - destruct (Hh e s1) as (made' & Hcalls' & Hmade').
    exists (made ++ made')%list. split.
    + now rewrite Hcalls', Hcalls, app_assoc.
    + intros x [Hx|Hx]%elem_of_app; auto.
Qed.

Lemma calls_only_with_statement {handle A} allowed
    (enter : M world handle) exit (body : handle -> M world A) :
  calls_only allowed enter -> (∀ f, calls_only allowed (exit f)) ->
  (∀ f, calls_only allowed (body f)) ->
  calls_only allowed (with_statement enter exit body).
Proof.
  intros He Hx Hb. unfold with_statement. apply calls_only_bind; [exact He|].
  intros f s. destruct (Hb f s) as (made & Hcalls & Hmade).
  destruct (body f s) as [[a|e] s1]; simpl in *;
    destruct (Hx f s1) as (made' & Hcalls' & Hmade');
    destruct (exit f s1) as [[u|e'] s2]; simpl in *;
    (exists (made ++ made')%list; split;
     [now rewrite Hcalls', Hcalls, app_assoc
     |intros x [Hin|Hin]%elem_of_app; auto]).
Qed.

Lemma calls_only_for_each {A} allowed (body : A -> M world unit) xs :
  (∀ x, calls_only allowed (body x)) -> calls_only allowed (for_each body xs).
Proof.
  intros Hbody. induction xs as [|x xs IH]; simpl.
  - apply calls_only_ret.
  - apply calls_only_bind; [apply Hbody | intros _; exact IH].
Qed.

Lemma stops_raise {A} allowed e : stops allowed (raise (world:=world) (A:=A) e).
Proof.
  intros s. exists e, s, []. repeat split.
  - now rewrite app_nil_r.
  - apply list_subseteq_nil.
Qed.

Lemma stops_bind_l {A B} allowed (m : M world A) (k : A -> M world B) :
  stops allowed m -> stops allowed (bind m k).
Proof.
  intros Hm s. destruct (Hm s) as (e & s' & made & Hs & Hrest).
  exists e, s', made. split; [now apply bind_Raise | exact Hrest].
Qed.

Lemma stops_bind_r {A B} allowed (m : M world A) (k : A -> M world B) :
  keeps_bar m -> calls_only allowed m -> (∀ a, stops allowed (k a)) ->
  stops allowed (bind m k).
Proof.
  intros Hbar Hcalls Hk s.
  specialize (Hbar s). destruct (Hcalls s) as (made & Hmade & Hsub).
  unfold bind. destruct (m s) as [[a|e] s1]; simpl in *.
  - destruct (Hk a s1) as (e & s' & made' & Hs & Hp & Hc & Hsub').
    exists e, s', (made ++ made')%list. repeat split.
    + exact Hs.
    + rewrite Hp. unfold progress. now rewrite Hbar.
    + now rewrite Hc, Hmade, app_assoc.
    + intros x [Hx|Hx]%elem_of_app; auto.
  - exists e, s1, made. repeat split; try assumption.
    unfold progress. now rewrite Hbar.
Qed.

Lemma stops_invoke_refused {A} allowed sg npos kws why (body : M world A) :
  check_call sg npos kws = Some why -> stops allowed (invoke sg npos kws body).
Proof. intros H. unfold invoke. rewrite H. apply stops_raise. Qed.

End TraceFacts.

Section StageTraces.

Context {world handle : Type}.
Variable E : @externals world handle.
Variable cfg : config.
Implicit Types s : state world.

(** Decides that a name is one of a list of names written out. *)
Ltac listed :=
  solve [repeat first [apply list_elem_of_here | apply list_elem_of_further]].

(** Proves [keeps_bar m] along the structure of [m]. *)
Ltac bar_step :=
  first
    [ apply keeps_bar_ret | apply keeps_bar_raise | apply keeps_bar_lift
    | apply keeps_bar_foreign | apply keeps_bar_logging_info
    | apply keeps_bar_logging_warning | apply keeps_bar_undefined
    | apply keeps_bar_with_statement; [|intros ?|intros ?]
    | apply keeps_bar_try_except; [|intros ?]
    | apply keeps_bar_invoke
    | apply keeps_bar_cached; [reflexivity|]
    | apply keeps_bar_bind; [|intros ?]
    | match goal with |- keeps_bar (if ?b then _ else _) => destruct b end
    | match goal with |- keeps_bar (match ?o with _ => _ end) => destruct o end ].
Ltac bar := repeat bar_step.

(** Proves [calls_only allowed m] along the structure of [m]. *)
Ltac trace_step :=
  first
    [ apply calls_only_ret | apply calls_only_raise | apply calls_only_lift
    | apply calls_only_logging_info | apply calls_only_logging_warning
    | apply calls_only_undefined
    | apply calls_only_foreign; listed
    | apply calls_only_with_statement; [|intros ?|intros ?]
    | apply calls_only_try_except; [|intros ?]
    | apply calls_only_invoke
    | apply calls_only_cached
    | apply calls_only_bind; [|intros ?]
    | match goal with |- calls_only _ (if ?b then _ else _) => destruct b end
    | match goal with |- calls_only _ (match ?o with _ => _ end) => destruct o end ].
Ltac trace := repeat trace_step.

(** One step of a stage that goes on: it keeps the bar and calls only what is
    allowed. *)
Ltac step := apply stops_bind_r; [bar | trace | intros ?].

(** X3.  [pyannote_pipeline] and [configure_gemini_model] raise the
    [TypeError] of their call of [get_api_token], which passes the two
    keyword-only parameters positionally, from every state and without
    touching it: no token is looked up, and neither the diarization pipeline
    nor the Gemini model is ever built. *)
Theorem token_callers_raise_TypeError s system_instruction :
  pyannote_pipeline E cfg s
  = (Raise (TypeError "Dubber.get_api_token" (TooManyPositional 2)), s)
  ∧ configure_gemini_model E cfg system_instruction s
    = (Raise (TypeError "Dubber.get_api_token" (TooManyPositional 2)), s).
Proof. split; reflexivity. Qed.

(** X11.  [run_preprocessing] raises from every state, with the progress
    counter where it was, and its external calls are among the four that
    come before the diarization pipeline is needed: the audio is never
    segmented into utterances. *)
Theorem run_preprocessing_stops_before_segmentation :
  stops [ "video_processing.split_audio_video";
          "audio_processing.build_demucs_command";
          "audio_processing.execute_demcus_command";
          "audio_processing.assemble_split_audio_file_paths" ]
    (run_preprocessing E cfg).
Proof.
  unfold run_preprocessing.
  do 5 step.
  apply stops_bind_l. unfold pyannote_pipeline. apply stops_bind_l.
  now apply stops_invoke_refused with (why := TooManyPositional 2).
Qed.

(** X12.  [run_speech_to_text] raises from every state, with the progress
    counter where it was; at most it has loaded the Whisper model and
    transcribed the chunks.  It never asks for speaker diarization and never
    attaches speaker information. *)
Theorem run_speech_to_text_stops_before_diarization :
  stops [ "torch.cuda.is_available"; "WhisperModel";
          "speech_to_text.transcribe_audio_chunks" ]
    (run_speech_to_text E cfg).
Proof.
  unfold run_speech_to_text.
  do 3 step.
  apply stops_bind_r; [unfold speech_to_text_model, device; bar
                      |unfold speech_to_text_model, device; trace
                      |intros ?].
  step.
  apply stops_bind_l.
  now apply stops_invoke_refused
    with (why := UnexpectedKeyword "system_instructions").
Qed.

(** X13.  [run_translation] raises from every state, with the progress
    counter where it was; at most it has generated the script.  Nothing is
    ever translated or merged. *)
Theorem run_translation_stops_before_translating :
  stops ["translation.generate_script"] (run_translation E cfg).
Proof.
  unfold run_translation.
  do 2 step.
  apply stops_bind_l.
  now apply stops_invoke_refused
    with (why := UnexpectedKeyword "system_instructions").
Qed.

(** X14.  [run_text_to_speech] raises from every state, with the progress
    counter where it was; at most it has assigned voices.  No utterance is
    ever dubbed. *)
Theorem run_text_to_speech_stops_before_dubbing :
  stops ["text_to_speech.assign_voices"] (run_text_to_speech E cfg).
Proof.
  unfold run_text_to_speech.
  do 2 step.
  apply stops_bind_l, stops_raise.
Qed.

(** X15.  Whatever the external functions do, a run of [dub_ad] calls none
    of them beyond the first four of preprocessing: nothing is transcribed,
    translated, synthesized, written or removed. *)
Theorem dub_ad_calls_only_the_start_of_preprocessing :
  stops [ "video_processing.split_audio_video";
          "audio_processing.build_demucs_command";
          "audio_processing.execute_demcus_command";
          "audio_processing.assemble_split_audio_file_paths" ]
    (dub_ad E cfg).
Proof.
  unfold dub_ad, dub_ad_with.
  step.
  apply stops_bind_l. unfold run_preprocessing.
  do 5 step.
  apply stops_bind_l. unfold pyannote_pipeline. apply stops_bind_l.
  now apply stops_invoke_refused with (why := TooManyPositional 2).
Qed.

(** [Dubber.is_video] reads and writes nothing but its own slot: the log
    record of the start of a run does not change its verdict, and it leaves
    the outside world and the log alone. *)
Lemma Dubber_is_video_started s :
  fst (Dubber_is_video cfg (started s)) = fst (Dubber_is_video cfg s)
  ∧ outside (snd (Dubber_is_video cfg (started s))) = outside s
  ∧ log (snd (Dubber_is_video cfg (started s))) = log (started s)
  ∧ calls (snd (Dubber_is_video cfg (started s))) = calls s.
Proof.
  unfold Dubber_is_video, cached_property, lift, started. simpl.
  destruct (slot_is_video (self_dict s)) as [b|]; simpl; [now repeat split|].
  destruct (is_video (input_file cfg)); now repeat split.
Qed.

(** [run_preprocessing] logs nothing on the paths on which it raises, and
    it raises on all. *)
Lemma run_preprocessing_logs_nothing s :
  log (snd (run_preprocessing E cfg s)) = log s.
Proof.
  unfold run_preprocessing, pyannote_pipeline, invoke, Dubber_is_video,
    cached_property, lift, foreign, raise, bind. simpl.
  repeat match goal with
         | |- context [match ?x with _ => _ end] =>
           lazymatch x with
           | context [match _ with _ => _ end] => fail
           | _ => destruct x; simpl
           end
         end; reflexivity.
Qed.

(** Runs one step of a stage whose outcome [H] gives. *)
Ltac go H := rewrite (bind_Ret _ _ _ _ _ H); cbv beta iota zeta; cbn [fst snd].

(** A run ends where its preprocessing stage ends. *)
Lemma dub_ad_ends_in_run_preprocessing s e s' :
  run_preprocessing E cfg (started s) = (Raise e, s') ->
  dub_ad E cfg s = (Raise e, s').
Proof.
  intros H. unfold dub_ad, dub_ad_with.
  unfold bind at 1. unfold logging_info at 1. fold (started s).
  now apply bind_Raise.
Qed.

(** C5.  The save stage does swallow a failed write, but no run of [dub_ad]
    gets that far.  [run_save_utterance_metadata] returns the path of the
    metadata file from every state; when the guarded write raises, the
    exception is replaced by one warning-level log record that carries it.
    [dub_ad], however, ends inside its first stage from every state: it
    raises what [run_preprocessing] raises; its log holds the record of the
    start and nothing else, so no warning; and its external calls are among
    the first four of preprocessing, so the metadata file is never opened and
    postprocessing is never entered.  What ends the run is the first failure
    on the way, with its own exception: an unsupported input format, then the
    failure of [split_audio_video], [build_demucs_command],
    [execute_demcus_command] or [assemble_split_audio_file_paths]; and when
    all of these return, the [TypeError] of the call of [get_api_token] in
    [pyannote_pipeline]. *)
Theorem dub_ad_never_reaches_the_metadata_write :
  (∀ s, ∃ s',
     run_save_utterance_metadata E cfg s
     = (Ret (os_path_join (output_directory cfg) _UTTERNACE_METADATA_FILE_NAME),
        s'))
  ∧ (∀ s e s1,
       write_utterance_metadata E
         (os_path_join (output_directory cfg) _UTTERNACE_METADATA_FILE_NAME) s
       = (Raise e, s1) ->
       run_save_utterance_metadata E cfg s
       = (Ret (os_path_join (output_directory cfg) _UTTERNACE_METADATA_FILE_NAME),
          add_log (save_warning e) s1))
  ∧ (∀ s, ∃ e s' made,
       run_preprocessing E cfg (started s) = (Raise e, s')
       ∧ dub_ad E cfg s = (Raise e, s')
       ∧ log s' = log (started s)
       ∧ calls s' = (calls s ++ made)%list
       ∧ made ⊆ [ "video_processing.split_audio_video";
                  "audio_processing.build_demucs_command";
                  "audio_processing.execute_demcus_command";
                  "audio_processing.assemble_split_audio_file_paths" ])
  ∧ (∀ s e,
       fst (Dubber_is_video cfg s) = Raise e ->
       fst (dub_ad E cfg s) = Raise e)
  ∧ (∀ s e w,
       fst (Dubber_is_video cfg s) = Ret true ->
       video_processing_split_audio_video E (input_file cfg)
         (output_directory cfg) (outside s) = (Raise e, w) ->
       fst (dub_ad E cfg s) = Raise e)
  ∧ (∀ s (is_vid : bool) video audio w1,
       fst (Dubber_is_video cfg s) = Ret is_vid ->
       (if is_vid
        then video_processing_split_audio_video E (input_file cfg)
               (output_directory cfg) (outside s) = (Ret (video, audio), w1)
        else audio = input_file cfg ∧ w1 = outside s) ->
       (∀ e w2,
          audio_processing_build_demucs_command E audio (output_directory cfg) w1
          = (Raise e, w2) ->
          fst (dub_ad E cfg s) = Raise e)
       ∧ (∀ command w2,
            audio_processing_build_demucs_command E audio (output_directory cfg)
              w1 = (Ret command, w2) ->
            (∀ e w3,
               audio_processing_execute_demcus_command E command w2
               = (Raise e, w3) ->
               fst (dub_ad E cfg s) = Raise e)
            ∧ (∀ done w3,
                 audio_processing_execute_demcus_command E command w2
                 = (Ret done, w3) ->
                 (∀ e w4,
                    audio_processing_assemble_split_audio_file_paths E command w3
                    = (Raise e, w4) ->
                    fst (dub_ad E cfg s) = Raise e)
                 ∧ (∀ paths w4,
                      audio_processing_assemble_split_audio_file_paths E command
                        w3 = (Ret paths, w4) ->
                      fst (dub_ad E cfg s)
                      = Raise (TypeError "Dubber.get_api_token"
                                 (TooManyPositional 2)))))).
Proof.
  assert (Hstops : stops [ "video_processing.split_audio_video";
                           "audio_processing.build_demucs_command";
                           "audio_processing.execute_demcus_command";
                           "audio_processing.assemble_split_audio_file_paths" ]
                     (dub_ad E cfg)).
  { unfold dub_ad, dub_ad_with.
    step.
    apply stops_bind_l. unfold run_preprocessing.
    do 5 step.
    apply stops_bind_l. unfold pyannote_pipeline. apply stops_bind_l.
    now apply stops_invoke_refused with (why := TooManyPositional 2). }
  split; [|split; [|split; [|split; [|split]]]].
  - intros s. rewrite run_save_utterance_metadata_unfold. eauto.
  - intros s e s1 H. rewrite run_save_utterance_metadata_unfold. now rewrite H.
  - intros s. destruct (Hstops s) as (e & s' & made & Hd & _ & Hcalls & Hsub).
    destruct (run_preprocessing_aborts E cfg (started s)) as (e0 & s0 & Hpre & _).
    pose proof (dub_ad_ends_in_run_preprocessing _ _ _ Hpre) as Hd0.
    rewrite Hd in Hd0. injection Hd0 as -> ->.
    exists e0, s0, made. repeat split; try assumption.
    pose proof (run_preprocessing_logs_nothing (started s)) as Hlog.
    now rewrite Hpre in Hlog.
  - intros s e Hvid.
    destruct (Dubber_is_video_started s) as (Hfst & _).
    destruct (Dubber_is_video cfg (started s)) as [r s1] eqn:Hv.
    simpl in Hfst. rewrite Hvid in Hfst. subst r.
    erewrite dub_ad_ends_in_run_preprocessing; [reflexivity|].
    unfold run_preprocessing. apply bind_Raise. exact Hv.
  - intros s e w Hvid Hsplit.
    destruct (Dubber_is_video_started s) as (Hfst & Hout & _).
    destruct (Dubber_is_video cfg (started s)) as [r s1] eqn:Hv.
    simpl in Hfst, Hout. rewrite Hvid in Hfst. subst r.
    erewrite dub_ad_ends_in_run_preprocessing; [reflexivity|].
    unfold run_preprocessing. go Hv.
    apply bind_Raise, bind_Raise. unfold foreign. now rewrite Hout, Hsplit.
  - intros s is_vid video audio w1 Hvid Hfiles.
    destruct (Dubber_is_video_started s) as (Hfst & Hout & _).
    destruct (Dubber_is_video cfg (started s)) as [r s1] eqn:Hv.
    simpl in Hfst, Hout. rewrite Hvid in Hfst. subst r.
    assert (Hblock : ∃ video_file s2,
      (if is_vid
       then split <- foreign "video_processing.split_audio_video"
                       (video_processing_split_audio_video E (input_file cfg)
                          (output_directory cfg)) ;;
            ret (Some (fst split), snd split)
       else ret (None, input_file cfg)) s1 = (Ret (video_file, audio), s2)
      ∧ outside s2 = w1).
    { destruct is_vid.
      - eexists _, _. unfold bind, foreign. rewrite Hout, Hfiles. simpl.
        split; reflexivity.
      - destruct Hfiles as [-> ->]. eexists _, _. unfold ret. now split. }
    destruct Hblock as (video_file & s2 & Hblock & Hout2).
    split; [|intros command w2 Hbuild; split;
             [|intros done w3 Hexecute; split]].
    + intros e w2 Hbuild.
      erewrite dub_ad_ends_in_run_preprocessing; [reflexivity|].
      unfold run_preprocessing. go Hv. go Hblock.
      apply bind_Raise. unfold foreign. now rewrite Hout2, Hbuild.
    + intros e w3 Hexecute.
      erewrite dub_ad_ends_in_run_preprocessing; [reflexivity|].
      unfold run_preprocessing. go Hv. go Hblock.
      erewrite bind_Ret by (unfold foreign; now rewrite Hout2, Hbuild).
      apply bind_Raise. unfold foreign. simpl. now rewrite Hexecute.
    + intros e w4 Hassemble.
      erewrite dub_ad_ends_in_run_preprocessing; [reflexivity|].
      unfold run_preprocessing. go Hv. go Hblock.
      erewrite bind_Ret by (unfold foreign; now rewrite Hout2, Hbuild).
      erewrite bind_Ret by (unfold foreign; simpl; now rewrite Hexecute).
      apply bind_Raise. unfold foreign. simpl. now rewrite Hassemble.
    + intros paths w4 Hassemble.
      erewrite dub_ad_ends_in_run_preprocessing; [reflexivity|].
      unfold run_preprocessing. go Hv. go Hblock.
      erewrite bind_Ret by (unfold foreign; now rewrite Hout2, Hbuild).
      erewrite bind_Ret by (unfold foreign; simpl; now rewrite Hexecute).
      erewrite bind_Ret by (unfold foreign; simpl; now rewrite Hassemble).
      cbv beta iota zeta. apply bind_Raise. reflexivity.
Qed.

End StageTraces.

(** ** Tokens, device and model *)

Section TokenFacts.

Context {world handle : Type}.
Variable E : @externals world handle.
Implicit Types s : state world.

(** X1.  A token passed as argument, if it is not empty, is the token
    [get_api_token] returns, and the environment is not consulted: the state,
    trace included, is untouched. *)
Theorem get_api_token_prefers_the_argument env_variable provided_token s :
  truthy provided_token = true ->
  ∃ token, provided_token = Some token
           ∧ get_api_token E env_variable provided_token s = (Ret token, s).
Proof.
  intros Hgiven. destruct provided_token as [token|]; [|discriminate].
  exists token. split; [reflexivity|].
  unfold get_api_token. rewrite Hgiven. unfold bind, ret. now rewrite Hgiven.
Qed.

(** X2.  What [get_api_token] can do, from any state.  A token it returns is
    never empty, and is either the argument, with the state untouched, or the
    value of the environment variable, read by one call of [os.getenv].  It
    raises only when the argument is missing or empty: then either the
    [ValueError] that names the variable and its upper-case form, or the
    exception of [os.getenv] itself. *)
Theorem get_api_token_outcomes env_variable provided_token s :
  match get_api_token E env_variable provided_token s with
  | (Ret token, s') =>
    token ≠ ""
    ∧ (provided_token = Some token ∧ s' = s
       ∨ truthy provided_token = false
         ∧ fst (os_getenv E env_variable (outside s)) = Ret (Some token)
         ∧ calls s' = (calls s ++ ["os.getenv"])%list)
  | (Raise e, s') =>
    truthy provided_token = false
    ∧ (e = ValueError (token_message env_variable)
       ∨ fst (os_getenv E env_variable (outside s)) = Raise e)
  end.
Proof.
  unfold get_api_token, bind.
  destruct (truthy provided_token) eqn:Hgiven.
  - destruct provided_token as [token|]; [|discriminate].
    unfold ret. rewrite Hgiven. split; [|now left].
    intros ->. discriminate.
  - unfold foreign.
    destruct (os_getenv E env_variable (outside s)) as [[[token|]|e] w] eqn:Henv;
      simpl.
    + destruct (String.eqb token "") eqn:Hempty; simpl.
      * split; [reflexivity | now left].
      * split; [intros ->; discriminate|]. right. repeat split.
    + split; [reflexivity | now left].
    + split; [reflexivity | now right].
Qed.

(** X4.  The device is asked of [torch] at most once per [Dubber]: once a
    read of [device] has returned, reading it again returns the same value
    and changes nothing, so no further external call is made.  A value that
    was not cached beforehand is ["gpu"] or ["cpu"]. *)
Theorem device_is_queried_once s d s1 :
  device E s = (Ret d, s1) ->
  device E s1 = (Ret d, s1)
  ∧ (slot_device (self_dict s) = None -> d = "gpu" ∨ d = "cpu").
Proof.
  intros Hread. split.
  - unfold device in *. eapply cached_property_memo; [|exact Hread].
    now intros o [].
  - intros Hnone. unfold device, cached_property in Hread. rewrite Hnone in Hread.
    unfold bind, foreign in Hread.
    destruct (torch_cuda_is_available E (outside s)) as [[[]|e] w];
      simpl in Hread; try discriminate; injection Hread as Hd _; auto.
Qed.

(** X5.  On a [Dubber] whose device is not yet known, [speech_to_text_model]
    asks [torch] once and builds the [large-v3] Whisper model on the device
    it found, with compute type [float16] on the GPU and [int8] on the CPU;
    the device is cached on the way. *)
Theorem speech_to_text_model_matches_the_device s (cuda : bool) w :
  slot_device (self_dict s) = None ->
  torch_cuda_is_available E (outside s) = (Ret cuda, w) ->
  speech_to_text_model E s
  = foreign "WhisperModel"
      (WhisperModel E "large-v3" (if cuda then "gpu" else "cpu")
         (if cuda then "float16" else "int8"))
      (set_dict (set_slot_device (Some (if cuda then "gpu" else "cpu")))
         (add_call "torch.cuda.is_available" w s)).
Proof.
  intros Hnone Hcuda.
  unfold speech_to_text_model, bind. unfold device at 1.
  unfold cached_property, bind, foreign. rewrite Hnone, Hcuda. simpl.
  destruct cuda; reflexivity.
Qed.

End TokenFacts.

(** ** [is_video] *)

Lemma lower_char_keeps a (c : ascii) :
  is_upper c = false -> is_lower c = false ->
  Ascii.eqb (lower_char a) c = Ascii.eqb a c
  ∧ Ascii.eqb (upper_char a) c = Ascii.eqb a c.
Proof.
  intros Hu Hl. unfold lower_char, upper_char.
  destruct (is_upper a) eqn:Ha; destruct (is_lower a) eqn:Hb.
  - split.
    + destruct (Ascii.eqb_spec a c) as [->|Hne]; [congruence|].
      destruct (Ascii.eqb_spec (ascii_of_nat (nat_of_ascii a + 32)) c)
        as [<-|]; [|reflexivity].
      exfalso. revert Ha Hl. clear.
      destruct a as [[] [] [] [] [] [] [] []]; vm_compute; congruence.
    + destruct (Ascii.eqb_spec a c) as [->|Hne]; [congruence|].
      destruct (Ascii.eqb_spec (ascii_of_nat (nat_of_ascii a - 32)) c)
        as [<-|]; [|reflexivity].
      exfalso. revert Hb Hu. clear.
      destruct a as [[] [] [] [] [] [] [] []]; vm_compute; congruence.
  - split; [|reflexivity].
    destruct (Ascii.eqb_spec a c) as [->|Hne]; [congruence|].
    destruct (Ascii.eqb_spec (ascii_of_nat (nat_of_ascii a + 32)) c)
      as [<-|]; [|reflexivity].
    exfalso. revert Ha Hl. clear.
    destruct a as [[] [] [] [] [] [] [] []]; vm_compute; congruence.
  - split; [reflexivity|].
    destruct (Ascii.eqb_spec a c) as [->|Hne]; [congruence|].
    destruct (Ascii.eqb_spec (ascii_of_nat (nat_of_ascii a - 32)) c)
      as [<-|]; [|reflexivity].
    exfalso. revert Hb Hu. clear.
    destruct a as [[] [] [] [] [] [] [] []]; vm_compute; congruence.
  - now split.
Qed.

Lemma lower_char_after a :
  lower_char (lower_char a) = lower_char a
  ∧ lower_char (upper_char a) = lower_char a.
Proof. destruct a as [[] [] [] [] [] [] [] []]; split; reflexivity. Qed.

Lemma map_string_length f s : String.length (map_string f s) = String.length s.
Proof. induction s as [|c s IH]; simpl; [reflexivity | now rewrite IH]. Qed.

Lemma map_string_map_string f g s :
  map_string f (map_string g s) = map_string (λ c, f (g c)) s.
Proof. induction s as [|c s IH]; simpl; [reflexivity | now rewrite IH]. Qed.

Lemma map_string_ext f g s :
  (∀ c, f c = g c) -> map_string f s = map_string g s.
Proof.
  intros H. induction s as [|c s IH]; simpl; [reflexivity | now rewrite H, IH].
Qed.

Lemma map_string_substring f i k s :
  String.substring i k (map_string f s) = map_string f (String.substring i k s).
Proof.
  revert i k. induction s as [|c s IH]; intros i k.
  - destruct i, k; reflexivity.
  - destruct i as [|i]; destruct k as [|k]; simpl; try reflexivity.
    + now rewrite IH.
    + apply IH.
    + apply IH.
Qed.

Lemma rfind_from_map_string f c s i last :
  (∀ a, Ascii.eqb (f a) c = Ascii.eqb a c) ->
  rfind_from c (map_string f s) i last = rfind_from c s i last.
Proof.
  intros Hf. revert i last.
  induction s as [|a s IH]; intros i last; simpl; [reflexivity|].
  now rewrite Hf, IH.
Qed.

Lemma all_dots_map_string f s :
  (∀ a, Ascii.eqb (f a) "." = Ascii.eqb a ".") ->
  all_chars (Ascii.eqb ".") (map_string f s) = all_chars (Ascii.eqb ".") s.
Proof.
  intros Hf. induction s as [|a s IH]; [reflexivity|].
  cbn [map_string all_chars]. rewrite IH. f_equal.
  rewrite (Ascii.eqb_sym "." (f a)), (Ascii.eqb_sym "." a). apply Hf.
Qed.

(** Changing the case of letters moves neither the last dot nor the last
    slash, so [splitext] splits at the same place. *)
Lemma splitext_map_string f p :
  (∀ a, Ascii.eqb (f a) "." = Ascii.eqb a ".") ->
  (∀ a, Ascii.eqb (f a) "/" = Ascii.eqb a "/") ->
  splitext (map_string f p)
  = (map_string f (fst (splitext p)), map_string f (snd (splitext p))).
Proof.
  intros Hdot Hsep. unfold splitext, rfind, slice.
  rewrite !rfind_from_map_string by assumption.
  rewrite map_string_length.
  destruct (rfind_from "/" p 0 (-1) <? rfind_from "." p 0 (-1)); [|reflexivity].
  rewrite !map_string_substring, all_dots_map_string by assumption.
  now destruct (all_chars _ _).
Qed.

(** X6.  [is_video] ignores the case of letters: a path written in lower or
    in upper case gets the verdict, or the error, of the path as given. *)
Theorem is_video_ignores_case input_file :
  is_video (lower input_file) = is_video input_file
  ∧ is_video (upper input_file) = is_video input_file.
Proof.
  assert (Hext : ∀ f,
            (∀ a, Ascii.eqb (f a) "." = Ascii.eqb a ".") ->
            (∀ a, Ascii.eqb (f a) "/" = Ascii.eqb a "/") ->
            (∀ a, lower_char (f a) = lower_char a) ->
            is_video (map_string f input_file) = is_video input_file).
  { intros f Hdot Hsep Hlow. unfold is_video.
    rewrite splitext_map_string by assumption. simpl snd.
    unfold lower. rewrite map_string_map_string.
    now rewrite (map_string_ext _ lower_char) by exact Hlow. }
  split; apply Hext; intros a;
    try (apply lower_char_keeps; reflexivity); apply lower_char_after.
Qed.

Lemma rfind_from_absent c s i last :
  no_char c s = true -> rfind_from c s i last = last.
Proof.
  revert i last. induction s as [|a s IH]; intros i last H; [reflexivity|].
  apply no_char_cons in H as [Ha Hs]. simpl. rewrite Ha. now apply IH.
Qed.

Lemma rfind_from_bound c s i last :
  -1 <= last -> 0 <= i -> -1 <= rfind_from c s i last.
Proof.
  revert i last. induction s as [|a s IH]; intros i last Hlast Hi; simpl.
  - exact Hlast.
  - apply IH; [destruct (Ascii.eqb a c)|]; lia.
Qed.

(** X7.  A path without any dot has no extension, and [is_video] refuses it
    with the [ValueError] for the empty format. *)
Theorem is_video_refuses_a_path_without_dot input_file :
  no_char "." input_file = true ->
  is_video input_file = Raise (ValueError "Unsupported file format: ").
Proof.
  intros Hnodot. unfold is_video, splitext, rfind.
  rewrite (rfind_from_absent "." input_file 0 (-1) Hnodot).
  assert (Hsep := rfind_from_bound "/" input_file 0 (-1) ltac:(lia) ltac:(lia)).
  replace (rfind_from "/" input_file 0 (-1) <? -1) with false
    by (symmetry; apply Z.ltb_ge; lia).
  reflexivity.
Qed.

(** X8.  [Dubber.is_video] hands out the verdict of [is_video] on the input
    file.  A verdict is computed once: after a read that returned, the next
    one returns the same value and changes nothing.  An unsupported format is
    never cached: every read of a [Dubber] with nothing cached raises the
    [ValueError] and leaves the state as it was. *)
Theorem Dubber_is_video_caches_verdicts_only {world} cfg (s : state world) :
  (∀ verdict s1,
     Dubber_is_video cfg s = (Ret verdict, s1) ->
     Dubber_is_video cfg s1 = (Ret verdict, s1)
     ∧ (slot_is_video (self_dict s) = None ->
        is_video (input_file cfg) = Ret verdict))
  ∧ (∀ e,
       slot_is_video (self_dict s) = None ->
       is_video (input_file cfg) = Raise e ->
       Dubber_is_video cfg s = (Raise e, s)).
Proof.
  split.
  - intros verdict s1 Hread. split.
    + unfold Dubber_is_video in *. eapply cached_property_memo; [|exact Hread].
      now intros o [].
    + intros Hnone. unfold Dubber_is_video, cached_property, lift in Hread.
      rewrite Hnone in Hread.
      destruct (is_video (input_file cfg)); [|discriminate].
      now injection Hread as <- _.
  - intros e Hnone Hbad. unfold Dubber_is_video, cached_property, lift.
    now rewrite Hnone, Hbad.
Qed.

(** ** [read_system_settings] *)

Lemma splitext_without_dot p :
  no_char "." p = true -> splitext p = (p, "").
Proof.
  intros Hnodot. unfold splitext, rfind.
  rewrite (rfind_from_absent "." p 0 (-1) Hnodot).
  assert (Hsep := rfind_from_bound "/" p 0 (-1) ltac:(lia) ltac:(lia)).
  replace (rfind_from "/" p 0 (-1) <? -1) with false
    by (symmetry; apply Z.ltb_ge; lia).
  reflexivity.
Qed.

Section SystemSettingsFacts.

Context {world : Type}.
Variable gfile_read : string -> world -> outcome string * world.
Implicit Types s : state world.

(** X9.  Instructions written without any dot are returned as they are,
    and nothing is read: the state, trace included, is untouched. *)
Theorem read_system_settings_returns_plain_text system_instructions s :
  no_char "." system_instructions = true ->
  read_system_settings gfile_read system_instructions s
  = (Ret system_instructions, s).
Proof.
  intros Hnodot. unfold read_system_settings.
  now rewrite (splitext_without_dot _ Hnodot).
Qed.

(** X10.  What [read_system_settings] does with an argument that has an
    extension.  With [.txt] the file is read, once: its content is returned;
    a [FileNotFoundError] of the read is replaced by a [FileNotFoundError]
    whose message is ["File not found: "] followed by the path; any other
    exception of the read passes unchanged.  With any other extension
    nothing is read and the [ValueError] names the extension. *)
Theorem read_system_settings_by_extension system_instructions s :
  (snd (splitext system_instructions) = ".txt" ->
   (∀ content w,
      gfile_read system_instructions (outside s) = (Ret content, w) ->
      read_system_settings gfile_read system_instructions s
      = (Ret content, add_call "tf.io.gfile.GFile.read" w s))
   ∧ (∀ msg w,
        gfile_read system_instructions (outside s)
        = (Raise (Foreign "FileNotFoundError" msg), w) ->
        read_system_settings gfile_read system_instructions s
        = (Raise (Foreign "FileNotFoundError"
                    ("File not found: " +:+ system_instructions)),
           add_call "tf.io.gfile.GFile.read" w s))
   ∧ (∀ e w,
        gfile_read system_instructions (outside s) = (Raise e, w) ->
        (∀ msg, e ≠ Foreign "FileNotFoundError" msg) ->
        read_system_settings gfile_read system_instructions s
        = (Raise e, add_call "tf.io.gfile.GFile.read" w s)))
  ∧ (snd (splitext system_instructions) ≠ ".txt" ->
     snd (splitext system_instructions) ≠ "" ->
     read_system_settings gfile_read system_instructions s
     = (Raise (ValueError ("Unsupported file type: "
                           +:+ snd (splitext system_instructions))), s)).
Proof.
  unfold read_system_settings. split.
  - intros ->. simpl. unfold try_except, foreign. repeat split.
    + intros content w ->. reflexivity.
    + intros msg w ->. reflexivity.
    + intros e w -> Hother. unfold file_not_found_handler.
      destruct e as [| | | |cls msg]; try reflexivity.
      destruct (String.eqb_spec cls "FileNotFoundError") as [->|]; [|reflexivity].
      now contradiction (Hother msg).
  - intros Htxt Hext.
    destruct (String.eqb_spec (snd (splitext system_instructions)) ".txt");
      [contradiction|].
    destruct (String.eqb_spec (snd (splitext system_instructions)) "");
      [contradiction|].
    reflexivity.
Qed.

End SystemSettingsFacts.

(** ** Postprocessing, cleanup and the save stage, one at a time *)

Section LateStageFacts.

Context {world handle : Type}.
Variable E : @externals world handle.
Variable cfg : config.
Implicit Types s : state world.

Lemma foreign_Ret {A} name (f : world -> outcome A * world) s a w :
  f (outside s) = (Ret a, w) -> foreign name f s = (Ret a, add_call name w s).
Proof. intros H. unfold foreign. now rewrite H. Qed.

(** Runs the first bind of the goal when its left part is a cached read that
    hits or an external call known to return. *)
Ltac run_step :=
  erewrite bind_Ret
    by first [ apply cached_property_hit; simpl; eassumption
             | apply foreign_Ret; simpl; eassumption ].

(** X16.  For an audio input whose preprocessing and synthesis outputs are
    cached, [run_postprocessing] inserts the dubbed utterances over the
    background track, merges background and vocals, and returns the merged
    audio file: those are its only two external calls, in that order (no
    video is assembled), and the counter has advanced by one. *)
Theorem run_postprocessing_of_audio_returns_the_merged_audio
    s p dubbed vocals_file w1 merged_file w2 :
  slot_preprocesing_output (self_dict s) = Some p ->
  slot_text_to_speech_output (self_dict s) = Some dubbed ->
  slot_is_video (self_dict s) = Some false ->
  audio_processing_insert_audio_at_timestamps E dubbed (audio_background_file p)
    (output_directory cfg) (outside s) = (Ret vocals_file, w1) ->
  audio_processing_merge_background_and_vocals E (audio_background_file p)
    vocals_file (output_directory cfg) w1 = (Ret merged_file, w2) ->
  ∃ s',
    run_postprocessing E cfg s = (Ret merged_file, s')
    ∧ calls s' = (calls s ++ [ "audio_processing.insert_audio_at_timestamps";
                               "audio_processing.merge_background_and_vocals" ])%list
    ∧ outside s' = w2
    ∧ progress s' = progress s + 1.
Proof.
  intros Hp Hd Hv Hinsert Hmerge.
  unfold run_postprocessing, text_to_speech_output, preprocesing_output,
    Dubber_is_video.
  do 6 run_step.
  unfold ret, logging_info, progress_bar_update, progress_bar, cached_property,
    bind, progress. simpl.
  destruct (slot_progress_bar (self_dict s)) as [bar|]; simpl;
    (eexists; split; [reflexivity|]; simpl; repeat split;
     now rewrite <- app_assoc).
Qed.

(** X17.  For a video input whose cached preprocessing output holds no video
    file, [run_postprocessing] raises the [ValueError] that asks for one, but
    only after both audio steps have run; the counter has not moved. *)
Theorem run_postprocessing_of_video_needs_the_video_file
    s p dubbed vocals_file w1 merged_file w2 :
  slot_preprocesing_output (self_dict s) = Some p ->
  slot_text_to_speech_output (self_dict s) = Some dubbed ->
  slot_is_video (self_dict s) = Some true ->
  truthy (video_file p) = false ->
  audio_processing_insert_audio_at_timestamps E dubbed (audio_background_file p)
    (output_directory cfg) (outside s) = (Ret vocals_file, w1) ->
  audio_processing_merge_background_and_vocals E (audio_background_file p)
    vocals_file (output_directory cfg) w1 = (Ret merged_file, w2) ->
  ∃ s',
    run_postprocessing E cfg s
    = (Raise (ValueError
                "A video file must be provided if the input file is a video."),
       s')
    ∧ calls s' = (calls s ++ [ "audio_processing.insert_audio_at_timestamps";
                               "audio_processing.merge_background_and_vocals" ])%list
    ∧ progress s' = progress s.
Proof.
  intros Hp Hd Hv Hnone Hinsert Hmerge.
  unfold run_postprocessing, text_to_speech_output, preprocesing_output,
    Dubber_is_video.
  do 6 run_step.
  unfold bind at 1. unfold bind at 1.
  rewrite (cached_property_hit _ _ _ _ p) by exact Hp.
  rewrite Hnone. simpl.
  eexists. split; [reflexivity|]. simpl. split; [now rewrite <- app_assoc|].
  reflexivity.
Qed.

Lemma for_each_ext {A} (f g : A -> M world unit) xs s :
  (∀ x, x ∈ xs -> ∀ s0, f x s0 = g x s0) ->
  for_each f xs s = for_each g xs s.
Proof.
  revert s. induction xs as [|x xs IH]; intros s Hfg; [reflexivity|].
  cbn [for_each]. unfold bind.
  rewrite (Hfg x (list_elem_of_here x xs)).
  destruct (g x s) as [[[]|e] s1]; [|reflexivity].
  apply IH. intros y Hy. apply Hfg. now apply list_elem_of_further.
Qed.

(** X19.  The keep list protects an entry only by its bare name: when no
    listed name is in the keep list, the cleanup loop does exactly what it
    does with an empty keep list.  A final output recorded by its path is
    therefore not protected. *)
Theorem clean_loop_ignores_a_keep_list_of_other_names keep_files s listing w :
  gfile_listdir E (output_directory cfg) (outside s) = (Ret listing, w) ->
  (∀ filename, filename ∈ listing -> filename ∉ keep_files) ->
  clean_loop E cfg keep_files s = clean_loop E cfg [] s.
Proof.
  intros Hlist Hother. unfold clean_loop.
  rewrite !(bind_Ret _ _ s listing (add_call "tf.io.gfile.listdir" w s))
    by (now apply foreign_Ret).
  apply for_each_ext. intros filename Hin s0. unfold clean_entry.
  rewrite (bool_decide_eq_false_2 (filename ∈ keep_files))
    by (now apply Hother).
  now rewrite (bool_decide_eq_false_2 (filename ∈ []))
    by (apply not_elem_of_nil).
Qed.

(** X21.  On a [Dubber] with no synthesis output cached, which is every
    [Dubber] that only its own methods have touched, the save stage never
    writes the metadata: [json.dump] is not called, at most the file is
    opened and closed, and the only record logged is one warning. *)
Theorem run_save_utterance_metadata_writes_nothing_uncached s :
  slot_text_to_speech_output (self_dict s) = None ->
  ∃ e s1 made,
    run_save_utterance_metadata E cfg s
    = (Ret (os_path_join (output_directory cfg) _UTTERNACE_METADATA_FILE_NAME),
       add_log (save_warning e) s1)
    ∧ log s1 = log s
    ∧ calls s1 = (calls s ++ made)%list
    ∧ made ⊆ ["tf.io.gfile.GFile"; "GFile.__exit__"].
Proof.
  intros Hnone. rewrite run_save_utterance_metadata_unfold.
  unfold write_utterance_metadata, with_statement, bind, foreign.
  destruct (gfile_GFile_w E _ (outside s)) as [[f|e] w].
  - unfold text_to_speech_output at 1. unfold cached_property. simpl.
    rewrite Hnone. simpl.
    destruct (gfile_GFile_exit E f w) as [[u|e'] w']; simpl;
      eexists _, _, ["tf.io.gfile.GFile"; "GFile.__exit__"];
      (split; [reflexivity|]); simpl;
      (repeat split; [now rewrite <- app_assoc | reflexivity]).
  - eexists _, _, ["tf.io.gfile.GFile"]. split; [reflexivity|]. simpl.
    repeat split. intros x Hx. apply list_elem_of_singleton in Hx. subst.
    apply list_elem_of_here.
Qed.

End LateStageFacts.

(** X22.  One [progress_bar.update(k)] changes nothing but the bar: the
    count goes up by [k]; the total stays what it was, or, when the update is
    the first use of the bar, is 6 with cleanup and 5 without. *)
Theorem progress_bar_update_only_moves_the_count {world} cfg k (s : state world) :
  ∃ bar,
    progress_bar_update cfg k s
    = (Ret tt, set_dict (set_slot_progress_bar (Some bar)) s)
    ∧ n bar = progress s + k
    ∧ total bar = match slot_progress_bar (self_dict s) with
                  | Some old => total old
                  | None => if clean_up cfg then 6 else 5
                  end.
Proof.
  unfold progress_bar_update, progress_bar, cached_property, bind, progress.
  destruct (slot_progress_bar (self_dict s)) as [old|]; simpl.
  - eexists. split; [reflexivity|]. simpl. now split.
  - eexists. split; [reflexivity|]. simpl. split; [reflexivity|].
    now destruct (clean_up cfg).
Qed.

(** ** More concrete runs *)

Lemma get_api_token_with_an_argument :
  truthy (Some "hf") = true
  ∧ ∃ token, Some "hf" = Some token
             ∧ get_api_token toy_externals "HUGGING_FACE_TOKEN" (Some "hf")
                 (Dubber_init toy_directory)
               = (Ret token, Dubber_init toy_directory).
Proof.
  split; [reflexivity|].
  apply (get_api_token_prefers_the_argument toy_externals "HUGGING_FACE_TOKEN"
           (Some "hf") (Dubber_init toy_directory)).
  reflexivity.
Defined.

Lemma device_on_a_machine_without_cuda :
  let s := Dubber_init toy_directory in
  let s1 := snd (device toy_externals s) in
  device toy_externals s = (Ret "cpu", s1)
  ∧ device toy_externals s1 = (Ret "cpu", s1)
  ∧ calls s1 = ["torch.cuda.is_available"].
Proof.
  split; [reflexivity|]. split; [|reflexivity].
  apply (device_is_queried_once toy_externals (Dubber_init toy_directory) "cpu").
  reflexivity.
Defined.

Lemma speech_to_text_model_without_cuda :
  let s := Dubber_init toy_directory in
  slot_device (self_dict s) = None
  ∧ speech_to_text_model toy_externals s
    = foreign "WhisperModel" (WhisperModel toy_externals "large-v3" "cpu" "int8")
        (set_dict (set_slot_device (Some "cpu"))
           (add_call "torch.cuda.is_available" toy_directory s)).
Proof.
  split; [reflexivity|].
  apply (speech_to_text_model_matches_the_device toy_externals
           (Dubber_init toy_directory) false toy_directory); reflexivity.
Defined.

Lemma is_video_of_a_bare_name :
  no_char "." "README" = true
  ∧ is_video "README" = Raise (ValueError "Unsupported file format: ").
Proof.
  split; [reflexivity|].
  apply (is_video_refuses_a_path_without_dot "README"). reflexivity.
Defined.

Lemma Dubber_is_video_on_a_video_and_on_a_document :
  (let s := Dubber_init toy_directory in
   let s1 := snd (Dubber_is_video toy_config s) in
   Dubber_is_video toy_config s = (Ret true, s1)
   ∧ Dubber_is_video toy_config s1 = (Ret true, s1))
  ∧ is_video "notes.pdf" = Raise (ValueError "Unsupported file format: .pdf").
Proof.
  split; [|reflexivity].
  split; [reflexivity|].
  apply (proj1 (Dubber_is_video_caches_verdicts_only toy_config
                  (Dubber_init toy_directory)) true).
  reflexivity.
Defined.

Lemma read_system_settings_of_a_plain_sentence :
  no_char "." "Translate politely" = true
  ∧ read_system_settings toy_gfile_read "Translate politely"
      (Dubber_init toy_directory)
    = (Ret "Translate politely", Dubber_init toy_directory).
Proof.
  split; [reflexivity|].
  apply (read_system_settings_returns_plain_text toy_gfile_read
           "Translate politely" (Dubber_init toy_directory)).
  reflexivity.
Defined.

Lemma read_system_settings_of_files_and_sentences :
  fst (read_system_settings toy_gfile_read "settings.txt"
         (Dubber_init toy_directory)) = Ret "Be brief"
  ∧ fst (read_system_settings toy_gfile_read "missing.txt"
           (Dubber_init toy_directory))
    = Raise (Foreign "FileNotFoundError" "File not found: missing.txt")
  ∧ read_system_settings toy_gfile_read "Translate politely."
      (Dubber_init toy_directory)
    = (Raise (ValueError "Unsupported file type: ."), Dubber_init toy_directory).
Proof.
  split; [|split].
  - now rewrite (proj1 (proj1 (read_system_settings_by_extension toy_gfile_read
                                 "settings.txt" (Dubber_init toy_directory))
                          eq_refl) "Be brief" toy_directory eq_refl).
  - now rewrite (proj1 (proj2 (proj1 (read_system_settings_by_extension
                                        toy_gfile_read "missing.txt"
                                        (Dubber_init toy_directory)) eq_refl))
                   "missing.txt" toy_directory eq_refl).
  - apply (proj2 (read_system_settings_by_extension toy_gfile_read
                    "Translate politely." (Dubber_init toy_directory)));
      discriminate.
Defined.

Lemma run_postprocessing_on_an_audio_ad :
  let s := with_stage_outputs toy_audio_artifacts []
             (set_dict (set_slot_is_video (Some false)) (Dubber_init toy_directory)) in
  ∃ s',
    run_postprocessing toy_externals toy_audio_config s
    = (Ret "out/dubbed_audio.mp3", s')
    ∧ calls s' = (calls s ++ [ "audio_processing.insert_audio_at_timestamps";
                               "audio_processing.merge_background_and_vocals" ])%list
    ∧ outside s' = toy_directory
    ∧ progress s' = progress s + 1.
Proof.
  apply (run_postprocessing_of_audio_returns_the_merged_audio toy_externals
           toy_audio_config
           (with_stage_outputs toy_audio_artifacts []
              (set_dict (set_slot_is_video (Some false))
                 (Dubber_init toy_directory)))
           toy_audio_artifacts [] "out/dubbed_vocals.mp3"
           toy_directory "out/dubbed_audio.mp3" toy_directory); reflexivity.
Defined.

Lemma run_postprocessing_on_a_video_without_video_file :
  let s := with_stage_outputs toy_audio_artifacts []
             (set_dict (set_slot_is_video (Some true)) (Dubber_init toy_directory)) in
  ∃ s',
    run_postprocessing toy_externals toy_config s
    = (Raise (ValueError
                "A video file must be provided if the input file is a video."),
       s')
    ∧ calls s' = (calls s ++ [ "audio_processing.insert_audio_at_timestamps";
                               "audio_processing.merge_background_and_vocals" ])%list
    ∧ progress s' = progress s.
Proof.
  apply (run_postprocessing_of_video_needs_the_video_file toy_externals
           toy_config
           (with_stage_outputs toy_audio_artifacts []
              (set_dict (set_slot_is_video (Some true))
                 (Dubber_init toy_directory)))
           toy_audio_artifacts [] "out/dubbed_vocals.mp3"
           toy_directory "out/dubbed_audio.mp3" toy_directory); reflexivity.
Defined.

Lemma run_postprocessing_advances_on_an_audio_ad :
  let s := with_stage_outputs toy_audio_artifacts [] (Dubber_init toy_directory) in
  let r := run_postprocessing toy_externals toy_audio_config s in
  fst r = Ret "out/dubbed_audio.mp3" ∧ progress (snd r) = progress s + 1.
Proof.
  split; [reflexivity|].
  apply (run_postprocessing_advances toy_externals toy_audio_config
           (with_stage_outputs toy_audio_artifacts [] (Dubber_init toy_directory))
           "out/dubbed_audio.mp3").
  reflexivity.
Defined.

Lemma clean_loop_with_the_path_of_the_final_output :
  let s := Dubber_init toy_directory in
  (∀ filename, filename ∈ toy_files toy_directory ->
               filename ∉ ["out/dubbed.mp4"])
  ∧ clean_loop toy_externals toy_config ["out/dubbed.mp4"] s
    = clean_loop toy_externals toy_config [] s.
Proof.
  assert (Hother : ∀ filename, filename ∈ toy_files toy_directory ->
                               filename ∉ ["out/dubbed.mp4"]).
  { intros filename Hin Hkeep. apply list_elem_of_singleton in Hkeep. subst.
    now apply (bool_decide_eq_false_1
                 ("out/dubbed.mp4" ∈ toy_files toy_directory)). }
  split; [exact Hother|].
  apply (clean_loop_ignores_a_keep_list_of_other_names toy_externals toy_config
           ["out/dubbed.mp4"] (Dubber_init toy_directory)
           (toy_files toy_directory) toy_directory);
    [reflexivity | exact Hother].
Defined.

Lemma cleanup_advances_in_an_unlocked_directory :
  let w := {| toy_files := ["chunk_1.mp3"; "dubbed.mp4"]; toy_locked := [] |} in
  let s := with_final_output "out/dubbed.mp4" (Dubber_init w) in
  let r := run_clean_directory_body toy_externals toy_config [] s in
  fst r = Ret tt ∧ progress (snd r) = progress s + 1.
Proof.
  split; [reflexivity|].
  apply (run_clean_directory_body_advances toy_externals toy_config []).
  reflexivity.
Defined.

Lemma run_save_utterance_metadata_on_a_fresh_dubber :
  slot_text_to_speech_output (self_dict (Dubber_init toy_directory)) = None
  ∧ ∃ e s1 made,
      run_save_utterance_metadata toy_externals toy_config
        (Dubber_init toy_directory)
      = (Ret (os_path_join "out" "utterance_metadata.json"),
         add_log (save_warning e) s1)
      ∧ log s1 = []
      ∧ calls s1 = ([] ++ made)%list
      ∧ made ⊆ ["tf.io.gfile.GFile"; "GFile.__exit__"].
Proof.
  split; [reflexivity|].
  apply (run_save_utterance_metadata_writes_nothing_uncached toy_externals
           toy_config (Dubber_init toy_directory)).
  reflexivity.
Defined.

Lemma a_returning_run_hands_back_the_cached_output :
  let s := with_final_output "out/dubbed_audio.mp3" (Dubber_init toy_directory) in
  let r := dub_ad_with toy_audio_config (ret toy_audio_artifacts) (ret [])
             (ret []) (ret [])
             (run_save_utterance_metadata toy_externals toy_audio_config)
             (ret "out/another.mp3") (λ _, ret tt) s in
  fst r = Ret "out/dubbed_audio.mp3"
  ∧ slot_postprocessing_output (self_dict (snd r)) = Some "out/dubbed_audio.mp3".
Proof.
  split; [reflexivity|].
  apply (dub_ad_with_returns_the_cached_output toy_externals toy_audio_config
           (ret toy_audio_artifacts) (ret []) (ret []) (ret [])
           (ret "out/another.mp3") (λ _, ret tt)
           (with_final_output "out/dubbed_audio.mp3" (Dubber_init toy_directory))
           "out/dubbed_audio.mp3").
  reflexivity.
Defined.

Lemma toy_stage_advances {A} (v : A) s1 a s2 :
  toy_stage v s1 = (Ret a, s2) -> progress s2 = progress s1 + 1.
Proof.
  unfold toy_stage. intros H.
  apply bind_Ret_inv in H as ([] & s3 & Hup & Hret).
  injection Hret as _ <-.
  destruct (progress_bar_update_adds toy_audio_config 1 s1) as (s4 & Hs4 & Hadd).
  rewrite Hs4 in Hup. now injection Hup as <-.
Qed.

Lemma a_run_of_counting_stages_ends_at_five :
  let s := with_final_output "out/dubbed_audio.mp3" (Dubber_init toy_directory) in
  let r := dub_ad_with toy_audio_config (toy_stage toy_audio_artifacts)
             (toy_stage []) (toy_stage []) (toy_stage [])
             (run_save_utterance_metadata toy_externals toy_audio_config)
             (toy_stage "out/dubbed_audio.mp3") (λ _, toy_stage tt) s in
  fst r = Ret "out/dubbed_audio.mp3" ∧ progress (snd r) = progress s + 5.
Proof.
  split; [reflexivity|].
  apply (dub_ad_with_progress_by_design toy_externals toy_audio_config
           (toy_stage toy_audio_artifacts) (toy_stage []) (toy_stage [])
           (toy_stage []) (toy_stage "out/dubbed_audio.mp3") (λ _, toy_stage tt)
           (with_final_output "out/dubbed_audio.mp3" (Dubber_init toy_directory))
           "out/dubbed_audio.mp3");
    try (intros s1 a s2; apply toy_stage_advances).
  reflexivity.
Defined.

Lemma dub_ad_without_ffmpeg :
  slot_is_video (self_dict (Dubber_init toy_directory)) = None
  ∧ is_video (input_file toy_config) = Ret true
  ∧ fst (dub_ad toy_externals_without_ffmpeg toy_config (Dubber_init toy_directory))
    = Raise (Foreign "FileNotFoundError" "ffmpeg").
Proof.
  split; [reflexivity|]. split; [reflexivity|].
  apply (dub_ad_raises_the_error_of_split_audio_video
           toy_externals_without_ffmpeg toy_config (Dubber_init toy_directory)
           (Foreign "FileNotFoundError" "ffmpeg") toy_directory); reflexivity.
Defined.

(** C5 on a [Dubber] in a read-only output directory, with external
    functions that all succeed otherwise.  Called on its own, the save stage
    returns the path and logs the failed write as one warning.  The run
    itself ends with the [TypeError] of [get_api_token] after the fourth
    external call of preprocessing, and has logged its start only. *)
Lemma metadata_write_failure_in_a_readonly_directory :
  let s0 := Dubber_init toy_readonly in
  run_save_utterance_metadata toy_externals toy_config s0
  = (Ret "out/utterance_metadata.json",
     add_log (save_warning
                (Foreign "PermissionDeniedError" "out/utterance_metadata.json"))
       (add_call "tf.io.gfile.GFile" toy_readonly s0))
  ∧ fst (dub_ad toy_externals toy_config s0)
    = Raise (TypeError "Dubber.get_api_token" (TooManyPositional 2))
  ∧ log (snd (dub_ad toy_externals toy_config s0)) = log (started s0).
Proof.
  pose proof (dub_ad_never_reaches_the_metadata_write toy_externals toy_config)
    as (_ & Hwarn & Hrun & _ & _ & Hchain).
  split; [|split].
  - apply Hwarn. reflexivity.
  - destruct (Hchain (Dubber_init toy_readonly) true "out/video.mp4"
                "out/audio.mp3" toy_readonly eq_refl eq_refl) as (_ & Hbuild).
    destruct (Hbuild "demucs" toy_readonly eq_refl) as (_ & Hexecute).
    destruct (Hexecute tt toy_readonly eq_refl) as (_ & Hassemble).
    exact (Hassemble ("out/vocals.mp3", "out/no_vocals.mp3") toy_readonly
             eq_refl).
  - destruct (Hrun (Dubber_init toy_readonly))
      as (e & s' & made & _ & Hdub & Hlog & _).
    rewrite Hdub. exact Hlog.
Defined.

(** ** [setup.py] *)

Lemma rstrip_chars_empty drop s :
  rstrip_chars drop s = "" -> all_chars drop s = true.
Proof.
  induction s as [|c s IH]; simpl; [reflexivity|].
  destruct (rstrip_chars drop s) as [|c' r]; [|discriminate].
  destruct (drop c); [|discriminate].
  intros _. now rewrite IH.
Qed.

Lemma rstrip_chars_cons drop c s :
  rstrip_chars drop (String c s)
  = match rstrip_chars drop s with
    | EmptyString => if drop c then "" else String c ""
    | r => String c r
    end.
Proof. reflexivity. Qed.

Lemma rstrip_chars_idempotent drop s :
  rstrip_chars drop (rstrip_chars drop s) = rstrip_chars drop s.
Proof.
  induction s as [|c s IH]; [reflexivity|].
  rewrite (rstrip_chars_cons drop c s).
  destruct (rstrip_chars drop s) as [|c' r] eqn:Hr.
  - destruct (drop c) eqn:Hc; [reflexivity|].
    rewrite rstrip_chars_cons. simpl. now rewrite Hc.
  - rewrite rstrip_chars_cons. now rewrite IH.
Qed.

Lemma prefix_cons a s1 b s2 :
  String.prefix (String a s1) (String b s2)
  = if ascii_dec a b then String.prefix s1 s2 else false.
Proof. reflexivity. Qed.

Lemma prefix_nil s : String.prefix "" s = true.
Proof. now destruct s. Qed.

Lemma rstrip_chars_prefix drop s :
  String.prefix (rstrip_chars drop s) s = true.
Proof.
  induction s as [|c s IH]; [reflexivity|].
  rewrite rstrip_chars_cons.
  destruct (rstrip_chars drop s) as [|c' r] eqn:Hr.
  - destruct (drop c); [reflexivity|].
    rewrite prefix_cons. destruct (ascii_dec c c); [apply prefix_nil | congruence].
  - rewrite prefix_cons. destruct (ascii_dec c c); [exact IH | congruence].
Qed.

Lemma prefix_hash_of_prefix r s :
  String.prefix "#" r = true -> String.prefix r s = true ->
  String.prefix "#" s = true.
Proof.
  intros Hr Hs.
  destruct r as [|c r]; [discriminate|]. destruct s as [|d s]; [discriminate|].
  rewrite prefix_cons in *.
  destruct (ascii_dec "#" c) as [<-|]; [|discriminate].
  destruct (ascii_dec "#" d) as [<-|]; [|discriminate].
  apply prefix_nil.
Qed.

Lemma file_lines_not_empty content :
  Forall (λ line, line ≠ "") (file_lines content).
Proof.
  induction content as [|c rest IH]; simpl; [constructor|].
  destruct (Ascii.eqb c newline).
  - constructor; [discriminate | exact IH].
  - destruct (file_lines rest) as [|l ls]; constructor; try discriminate.
    + constructor.
    + now inversion IH.
Qed.

(** X26.  Every requirement [_parse_requirements] returns is a line of the
    file, stripped of the white space at its end, that was neither blank nor
    started with [#]: it is not empty, does not start with [#], and ends
    with no white space.  A failure to open the file is the only error. *)
Theorem _parse_requirements_returns_stripped_requirements
    _CURRENT_DIR open_read path :
  match open_read (os_path_join _CURRENT_DIR path) with
  | Ret content =>
    ∃ requirements,
      _parse_requirements _CURRENT_DIR open_read path = Ret requirements
      ∧ Forall (λ r, r ≠ ""
                     ∧ startswith "#" r = false
                     ∧ rstrip_chars py_space r = r
                     ∧ ∃ line, line ∈ file_lines content
                               ∧ r = rstrip_chars py_space line)
          requirements
  | Raise e => _parse_requirements _CURRENT_DIR open_read path = Raise e
  end.
Proof.
  unfold _parse_requirements.
  destruct (open_read (os_path_join _CURRENT_DIR path)) as [content|e];
    [|reflexivity].
  eexists. split; [reflexivity|].
  unfold _parse_requirements_lines.
  apply Forall_fmap, Forall_forall. intros line Hin.
  apply list_elem_of_filter in Hin as [Hkeep Hline].
  apply orb_false_iff in Hkeep as [Hblank Hhash]. simpl.
  assert (Hne : line ≠ "").
  { pose proof (file_lines_not_empty content) as Hall.
    rewrite Forall_forall in Hall. now apply Hall. }
  assert (Hsome : rstrip_chars py_space line ≠ "").
  { intros Hempty. apply rstrip_chars_empty in Hempty.
    unfold isspace in Hblank. rewrite Hempty, andb_true_r in Hblank.
    apply negb_false_iff, String.eqb_eq in Hblank. contradiction. }
  repeat split.
  - exact Hsome.
  - unfold startswith in *.
    destruct (String.prefix "#" (rstrip_chars py_space line)) eqn:Hr;
      [|reflexivity].
    rewrite <- Hhash. symmetry.
    apply (prefix_hash_of_prefix _ _ Hr), rstrip_chars_prefix.
  - apply rstrip_chars_idempotent.
  - now exists line.
Qed.

Lemma startswith_slash_join dir name :
  startswith "/" dir = true -> startswith "/" (os_path_join dir name) = true.
Proof.
  intros Hdir. unfold os_path_join.
  destruct (startswith "/" name) eqn:Hname; [exact Hname|].
  destruct dir as [|c dir]; [discriminate|].
  unfold startswith in *. rewrite prefix_cons in Hdir.
  destruct (String.eqb (String c dir) "" || endswith_char "/" (String c dir))%bool;
    rewrite append_cons_string, prefix_cons;
    (destruct (ascii_dec "/" c); [apply prefix_nil | discriminate]).
Qed.

(** X29.  The directory of [setup.py] is absolute, and then joining it to
    the requirements path a second time, inside [_parse_requirements],
    changes nothing: [_INSTALL_REQUIREMENTS] is read from [requirements.txt]
    in that directory. *)
Theorem _INSTALL_REQUIREMENTS_reads_the_requirements_file
    _CURRENT_DIR open_read :
  startswith "/" _CURRENT_DIR = true ->
  _INSTALL_REQUIREMENTS _CURRENT_DIR open_read
  = match open_read (os_path_join _CURRENT_DIR "requirements.txt") with
    | Ret content => Ret (_parse_requirements_lines (file_lines content))
    | Raise e => Raise e
    end.
Proof.
  intros Habs. unfold _INSTALL_REQUIREMENTS, _parse_requirements.
  assert (Hjoin : os_path_join _CURRENT_DIR
                    (os_path_join _CURRENT_DIR "requirements.txt")
                  = os_path_join _CURRENT_DIR "requirements.txt").
  { unfold os_path_join at 1.
    now rewrite (startswith_slash_join _ "requirements.txt" Habs). }
  now rewrite Hjoin.
Qed.

Lemma lstrip_chars_length drop s :
  (String.length (lstrip_chars drop s) <= String.length s)%nat.
Proof.
  induction s as [|c s IH]; simpl; [lia|].
  destruct (drop c); simpl; lia.
Qed.

Lemma lstrip_chars_fixed_app drop v t :
  v ≠ "" -> lstrip_chars drop v = v ->
  lstrip_chars drop (v +:+ t) = v +:+ t.
Proof.
  destruct v as [|c v]; [congruence|]. intros _ Hfixed.
  rewrite append_cons_string. simpl in *.
  destruct (drop c); [|reflexivity].
  pose proof (lstrip_chars_length drop v) as Hlen.
  rewrite Hfixed in Hlen. simpl in Hlen. lia.
Qed.

Lemma rstrip_chars_all_dropped drop t :
  all_chars drop t = true -> rstrip_chars drop t = "".
Proof.
  induction t as [|c t IH]; [reflexivity|]. simpl.
  intros [Hc Ht]%andb_prop. now rewrite (IH Ht), Hc.
Qed.

Lemma rstrip_chars_app_dropped drop v t :
  all_chars drop t = true ->
  rstrip_chars drop (v +:+ t) = rstrip_chars drop v.
Proof.
  intros Ht. induction v as [|c v IH].
  - rewrite append_nil_string. now apply rstrip_chars_all_dropped.
  - rewrite append_cons_string, !rstrip_chars_cons. now rewrite IH.
Qed.

Lemma substring_whole s : String.substring 0 (String.length s) s = s.
Proof. induction s as [|c s IH]; simpl; [reflexivity | now rewrite IH]. Qed.

(** The version line declares its version: the line passes the test of the
    loop, and what follows its first [=] strips down to the version. *)
Lemma version_line_declares v :
  clean_version v = true ->
  (startswith "__version__" (version_line v)
   && negb (no_char "=" (version_line v)))%bool = true
  ∧ strip_chars (char_in version_padding)
      (slice (version_line v) (find "=" (version_line v) + 1)
         (Z.of_nat (String.length (version_line v))))
    = v
  ∧ v ≠ "".
Proof.
  intros Hclean. unfold clean_version in Hclean.
  rewrite !andb_true_iff in Hclean. destruct Hclean as [[Hne Hleft] Hright].
  apply negb_true_iff, String.eqb_neq in Hne.
  apply String.eqb_eq in Hleft. apply String.eqb_eq in Hright.
  split; [reflexivity|]. split; [|exact Hne].
  set (tail := String (ascii_of_nat 34) (String newline "")).
  set (rest := String " " (String (ascii_of_nat 34) (v +:+ tail))).
  assert (Hfind : find "=" (version_line v) + 1 = 13) by reflexivity.
  assert (Hlen : String.length (version_line v) = (13 + String.length rest)%nat)
    by reflexivity.
  rewrite Hfind, Hlen. unfold slice.
  replace (Z.to_nat (Z.of_nat (13 + String.length rest) - 13))
    with (String.length rest) by lia.
  change (String.substring (Z.to_nat 13) (String.length rest) (version_line v))
    with (String.substring 0 (String.length rest) rest).
  rewrite substring_whole. unfold strip_chars, rest.
  change (lstrip_chars (char_in version_padding)
            (String " " (String (ascii_of_nat 34) (v +:+ tail))))
    with (lstrip_chars (char_in version_padding) (v +:+ tail)).
  rewrite lstrip_chars_fixed_app by assumption.
  rewrite rstrip_chars_app_dropped by reflexivity.
  exact Hright.
Qed.

(** X27.  A version file whose first line that starts with [__version__]
    and holds an [=] is the declaration of a clean version [v] (not empty, no
    space, quote or newline at either end) yields [v], whatever the lines
    around the declaration. *)
Theorem _get_version_reads_the_declared_version
    _CURRENT_DIR open_read content before v after :
  open_read (os_path_join (os_path_join _CURRENT_DIR "ariel") "__init__.py")
  = Ret content ->
  file_lines content = (before ++ version_line v :: after)%list ->
  Forall (λ line, (startswith "__version__" line
                   && negb (no_char "=" line))%bool = false) before ->
  clean_version v = true ->
  _get_version _CURRENT_DIR open_read = Ret v.
Proof.
  intros Hopen Hlines Hbefore Hclean. unfold _get_version.
  rewrite Hopen, Hlines. clear Hopen Hlines.
  destruct (version_line_declares v Hclean) as (Hguard & Hvalue & Hne).
  induction Hbefore as [|line before Hline _ IH].
  - cbn [app _get_version_lines]. rewrite Hguard. cbv zeta. rewrite Hvalue.
    destruct (String.eqb_spec v ""); [contradiction | reflexivity].
  - cbn [app _get_version_lines]. rewrite Hline. exact IH.
Qed.

(** X28.  A version file in which no line both starts with [__version__]
    and holds an [=] has no version: [_get_version] raises its
    [ValueError]. *)
Theorem _get_version_needs_a_declaration _CURRENT_DIR open_read content :
  open_read (os_path_join (os_path_join _CURRENT_DIR "ariel") "__init__.py")
  = Ret content ->
  Forall (λ line, (startswith "__version__" line
                   && negb (no_char "=" line))%bool = false)
    (file_lines content) ->
  _get_version _CURRENT_DIR open_read
  = Raise (ValueError "`__version__` not defined in `ariel/__init__.py`").
Proof.
  intros Hopen Hnone. unfold _get_version. rewrite Hopen.
  induction Hnone as [|line lines Hline _ IH]; [reflexivity|].
  cbn [_get_version_lines]. now rewrite Hline.
Qed.

Lemma _get_version_of_the_toy_tree :
  clean_version "0.0.1" = true
  ∧ _get_version "/repo" toy_open_read = Ret "0.0.1".
Proof.
  split; [reflexivity|].
  apply (_get_version_reads_the_declared_version "/repo" toy_open_read
           ("# Ariel" +:+ String newline (version_line "0.0.1"))
           ["# Ariel" +:+ String newline ""] "0.0.1" []).
  - reflexivity.
  - reflexivity.
  - repeat constructor.
  - reflexivity.
Defined.

Lemma _get_version_of_a_file_without_declaration :
  _get_version "/repo" (λ _, Ret ("# Ariel" +:+ String newline "version 1"))
  = Raise (ValueError "`__version__` not defined in `ariel/__init__.py`").
Proof.
  apply (_get_version_needs_a_declaration "/repo"
           (λ _, Ret ("# Ariel" +:+ String newline "version 1"))
           ("# Ariel" +:+ String newline "version 1")).
  - reflexivity.
  - repeat constructor.
Defined.

Lemma _INSTALL_REQUIREMENTS_of_the_toy_tree :
  startswith "/" "/repo" = true
  ∧ _INSTALL_REQUIREMENTS "/repo" toy_open_read = Ret ["absl-py"; "tqdm>=4"].
Proof.
  split; [reflexivity|].
  rewrite (_INSTALL_REQUIREMENTS_reads_the_requirements_file "/repo"
             toy_open_read eq_refl).
  reflexivity.
Defined.
